(** * Quotex signal API: a shallow embedding of [main.py]

    The development follows the source file top to bottom:
    - [Py]: the Python primitives the program relies on (string methods,
      negative indexing, slices, truthiness, [float], [round], f-strings);
    - the asset resolver [get_high_payout_pairs];
    - the analysis of one instrument [analyze_pair];
    - the two endpoints [login] and [get_signal].

    Numbers that the program holds as Python floats are modelled as
    rationals ([Q]) with exact sums and differences; a division is exact
    too, except that a quotient too small for a double underflows to zero
    ([Py.quotient]), as it does in the program; other rounding is not
    modelled.  Integers (the score, the confidence) are [Z].  The
    broker connector of [pyquotex] is not part of the program: it is a
    record of oracles ([World]) whose answers may depend on the whole
    history of calls made so far. *)

From Stdlib Require Import ZArith QArith Qabs Qround Bool List Lia Lqa.
From Stdlib Require Import Strings.String Strings.Ascii Numbers.DecimalString.
From Stdlib Require Import Sorting.Permutation.
Import ListNotations.

Set Warnings "-register-all".

Open Scope string_scope.
Open Scope Z_scope.

(** ** Python primitives *)

Module Py.

(** Values found in the connector's dictionaries.  String-valued fields do
    not occur in payout or candle records and are left out. *)
Inductive Val : Type :=
| VNone
| VBool (b : bool)
| VNum (q : Q)
| VDict (d : list (string * Val)).

Definition Dict : Type := list (string * Val).

(** Exceptions, by class.  [ConnectorError] stands for whatever the broker
    library raises. *)
Inductive Exn : Type :=
| ZeroDivisionError
| IndexError
| ValueError
| TypeError
| AttributeError
| ConnectorError (msg : string)
| HTTPException (status_code : Z) (detail : string).

Inductive Result (A : Type) : Type :=
| Ok (a : A)
| Raise (e : Exn).
Arguments Ok {A} a.
Arguments Raise {A} e.

Definition bind {A B : Type} (r : Result A) (k : A -> Result B) : Result B :=
  match r with
  | Ok a => k a
  | Raise e => Raise e
  end.

Fixpoint mapM {A B : Type} (f : A -> Result B) (l : list A) : Result (list B) :=
  match l with
  | [] => Ok []
  | x :: xs =>
      bind (f x) (fun y => bind (mapM f xs) (fun ys => Ok (y :: ys)))
  end.

(** [d.get(key, default)]: the first binding of [key]. *)
Fixpoint dict_get (d : Dict) (key : string) (default : Val) : Val :=
  match d with
  | [] => default
  | (k, v) :: rest => if String.eqb k key then v else dict_get rest key default
  end.

Definition Qltb (x y : Q) : bool := negb (Qle_bool y x).

(** Truth value of an object: [None], [False], zero and the empty dict are
    false. *)
Definition truthy (v : Val) : bool :=
  match v with
  | VNone => false
  | VBool b => b
  | VNum q => negb (Qeq_bool q 0)
  | VDict [] => false
  | VDict (_ :: _) => true
  end.

Definition is_dict (v : Val) : bool :=
  match v with
  | VDict _ => true
  | _ => false
  end.

(** [float(v)] *)
Definition float (v : Val) : Result Q :=
  match v with
  | VNum q => Ok q
  | VBool true => Ok 1%Q
  | VBool false => Ok 0%Q
  | VNone => Raise TypeError
  | VDict _ => Raise TypeError
  end.

(** Half of the least positive double, 2^-1074: a quotient of at most this
    magnitude rounds to 0.0. *)
Definition half_least_double : Q := 1 # (2 ^ 1075).

(** The float quotient of [x] by a non-zero [y]: the exact quotient, except
    that one too small for a double underflows to 0.0. *)
Definition quotient (x y : Q) : Q :=
  let q := (x / y)%Q in
  if Qle_bool (Qabs q) half_least_double then 0%Q else q.

(** [x / y] on floats *)
Definition div (x y : Q) : Result Q :=
  if Qeq_bool y 0 then Raise ZeroDivisionError else Ok (quotient x y).

(** [l[i]] with Python's negative indices *)
Definition index {A : Type} (l : list A) (i : Z) : Result A :=
  let n := Z.of_nat (List.length l) in
  let j := if i <? 0 then n + i else i in
  if (j <? 0) || (n <=? j) then Raise IndexError
  else match nth_error l (Z.to_nat j) with
       | Some x => Ok x
       | None => Raise IndexError
       end.

(** [l[-k:]] for [k > 0]: the last [k] items, or all of them *)
Definition last_n {A : Type} (k : nat) (l : list A) : list A :=
  skipn (List.length l - k) l.

(** [l.append(x)] *)
Definition append {A : Type} (l : list A) (x : A) : list A := (l ++ [x])%list.

(** [l[:k]] *)
Definition first_n {A : Type} (k : nat) (l : list A) : list A := firstn k l.

Definition sum (l : list Q) : Q := fold_left Qplus l 0%Q.

Definition Qmaxb (x y : Q) : Q := if Qltb x y then y else x.
Definition Qminb (x y : Q) : Q := if Qltb y x then y else x.

(** [max(l)] and [min(l)]: the first of the largest (smallest) items *)
Definition max (l : list Q) : Result Q :=
  match l with
  | [] => Raise ValueError
  | x :: xs => Ok (fold_left Qmaxb xs x)
  end.

Definition min (l : list Q) : Result Q :=
  match l with
  | [] => Raise ValueError
  | x :: xs => Ok (fold_left Qminb xs x)
  end.

(** *** Strings *)

(** [s.replace(old, new)]: non-overlapping occurrences, left to right.
    [skip] counts the characters of a matched occurrence still to drop. *)
Fixpoint replace_from (old new s : string) (skip : nat) : string :=
  match s with
  | EmptyString => EmptyString
  | String c rest =>
      match skip with
      | S k => replace_from old new rest k
      | O =>
          if String.prefix old s
          then new ++ replace_from old new rest (String.length old - 1)
          else String c (replace_from old new rest O)
      end
  end.

Fixpoint intersperse (new s : string) : string :=
  match s with
  | EmptyString => new
  | String c rest => new ++ String c (intersperse new rest)
  end.

Definition replace (old new s : string) : string :=
  match old with
  | EmptyString => intersperse new s
  | String _ _ => replace_from old new s O
  end.

Definition is_space (c : ascii) : bool :=
  let n := nat_of_ascii c in
  (((9 <=? n) && (n <=? 13)) || ((28 <=? n) && (n <=? 32)))%nat.

Fixpoint lstrip (s : string) : string :=
  match s with
  | EmptyString => EmptyString
  | String c rest => if is_space c then lstrip rest else s
  end.

Fixpoint rstrip (s : string) : string :=
  match s with
  | EmptyString => EmptyString
  | String c rest =>
      match rstrip rest with
      | EmptyString => if is_space c then EmptyString else String c EmptyString
      | r => String c r
      end
  end.

(** [s.strip()] *)
Definition strip (s : string) : string := rstrip (lstrip s).

Definition upper_char (c : ascii) : ascii :=
  let n := nat_of_ascii c in
  if ((97 <=? n) && (n <=? 122))%nat then ascii_of_nat (n - 32) else c.

(** [s.upper()], on ASCII letters *)
Fixpoint upper (s : string) : string :=
  match s with
  | EmptyString => EmptyString
  | String c rest => String (upper_char c) (upper rest)
  end.

(** [a in b] on strings *)
Fixpoint contains (a b : string) : bool :=
  String.prefix a b ||
  match b with
  | EmptyString => false
  | String _ rest => contains a rest
  end.

(** [sep.join(l)] *)
Fixpoint join (sep : string) (l : list string) : string :=
  match l with
  | [] => EmptyString
  | [x] => x
  | x :: rest => x ++ sep ++ join sep rest
  end.

(** [str(n)] and [int(s)] on integers *)
Definition str_int (n : Z) : string := NilZero.string_of_int (Z.to_int n).

Definition int_str (s : string) : Result Z :=
  match NilZero.int_of_string s with
  | Some d => Ok (Z.of_int d)
  | None => Raise ValueError
  end.

(** Nearest integer, ties to the even one. *)
Definition round_half_even (q : Q) : Z :=
  let f := Qfloor q in
  let r := (q - inject_Z f)%Q in
  if Qltb r 0.5 then f
  else if Qltb 0.5 r then f + 1
  else if Z.even f then f else f + 1.

(** [round(x, 5)] *)
Definition round5 (q : Q) : Q :=
  (inject_Z (round_half_even (q * 100000)) / 100000)%Q.

(** [f"{x:.1f}"] *)
Definition format_1f (q : Q) : string :=
  let n := Z.abs (round_half_even (q * 10)) in
  (if Qltb q 0 then "-" else EmptyString) ++
  str_int (n / 10) ++ "." ++ str_int (n mod 10).

End Py.

Import Py.

(** ** The connector and the program state *)

(** The [Quotex] client object held in the global [bot_client]. *)
Record Client : Type := {
  email : string;
  password : string;
  lang : string;
  account_mode : option string
}.

Definition Quotex (email password lang : string) : Client :=
  {| email := email; password := password; lang := lang; account_mode := None |}.

Definition set_account_mode (mode : string) (c : Client) : Client :=
  {| email := email c; password := password c; lang := lang c;
     account_mode := Some mode |}.

Definition Candle : Type := Dict.

(** What the program does to the outside, in order. *)
Inductive Event : Type :=
| EvClose (c : Client)
| EvConnect (c : Client)
| EvGetPayment
| EvGetAllAssets
| EvGetCandles (asset_code : string) (offset period : Z)
| EvSleep
| EvPrint (asset_code : string) (e : Exn).

(** The library side.  Every awaited call may raise; its answer is a
    function of the calls made before it. [exn_str] is [str(e)]. *)
Record World : Type := {
  close : list Event -> Client -> Result unit;
  connect : list Event -> Client -> Result (bool * string);
  get_payment : list Event -> Client -> Result (option Dict);
  get_all_assets : list Event -> Client -> Result (option Dict);
  get_candles : list Event -> Client -> string -> Result (option (list Candle));
  process_candles : list Candle -> Z -> Result (list Candle);
  exn_str : Exn -> string
}.

Record State : Type := {
  bot_client : option Client;
  trace : list Event
}.

Definition M (A : Type) : Type := State -> Result A * State.

Definition ret {A : Type} (a : A) : M A := fun st => (Ok a, st).

Definition raise {A : Type} (e : Exn) : M A := fun st => (Raise e, st).

Definition bindM {A B : Type} (m : M A) (k : A -> M B) : M B :=
  fun st =>
    match m st with
    | (Ok a, st') => k a st'
    | (Raise e, st') => (Raise e, st')
    end.

Definition try_except {A : Type} (m : M A) (handler : Exn -> M A) : M A :=
  fun st =>
    match m st with
    | (Ok a, st') => (Ok a, st')
    | (Raise e, st') => handler e st'
    end.

Definition lift {A : Type} (r : Result A) : M A := fun st => (r, st).

Declare Scope prog_scope.
Delimit Scope prog_scope with prog.
Notation "x <- m ;; k" := (bindM m (fun x => k))
  (at level 100, m at next level, right associativity) : prog_scope.
Notation "m ;;; k" := (bindM m (fun _ => k))
  (at level 100, right associativity) : prog_scope.
Open Scope prog_scope.

Definition read_client : M (option Client) := fun st => (Ok (bot_client st), st).

Definition write_client (c : option Client) : M unit :=
  fun st => (Ok tt, {| bot_client := c; trace := trace st |}).

Definition emit (ev : Event) : State -> State :=
  fun st => {| bot_client := bot_client st; trace := trace st ++ [ev] |}.

(** An awaited library call: the answer is taken from the history before
    the call, and the call is recorded. *)
Definition call {A : Type} (ev : Event) (answer : list Event -> Result A) : M A :=
  fun st => (answer (trace st), emit ev st).

Definition sleep : M unit := call EvSleep (fun _ => Ok tt).

Definition print (asset_code : string) (e : Exn) : M unit :=
  call (EvPrint asset_code e) (fun _ => Ok tt).

(** Attribute access on the global: [bot_client.f] fails on [None]. *)
Definition client_attr : M Client :=
  c <- read_client ;;
  match c with
  | Some cl => ret cl
  | None => raise AttributeError
  end.

(** ** Asset resolver: [get_high_payout_pairs] *)

Record Pair : Type := {
  asset_code : string;
  payout : Q;
  display_name : string
}.

(** Lines 37-41: the 1-minute payout of one entry; [None] is [continue]. *)
Definition payout_1m (asset_data : Val) : Result (option Q) :=
  match asset_data with
  | VDict d =>
      if negb (truthy (dict_get d "open" (VBool false))) then Ok None
      else
        let profit_data := dict_get d "profit" (VDict []) in
        bind (match profit_data with
              | VDict pd => float (dict_get pd "1M" (VNum 0))
              | _ => Ok 0%Q
              end)
             (fun payout => Ok (Some payout))
  | _ => Ok None
  end.

(** Lines 34-46 *)
Fixpoint high_payout_names (payment_data : Dict) : list (string * Q) :=
  match payment_data with
  | [] => []
  | (asset_name, asset_data) :: rest =>
      match payout_1m asset_data with
      | Ok (Some payout) =>
          if Qle_bool 90.0 payout
          then (asset_name, payout) :: high_payout_names rest
          else high_payout_names rest
      | Ok None => high_payout_names rest
      | Raise _ => high_payout_names rest
      end
  end.

(** Line 51 *)
Definition display_clean (name : string) : string :=
  upper (replace " " EmptyString (replace "/" EmptyString
    (strip (replace "(otc)" EmptyString (replace "(OTC)" EmptyString name))))).

(** Line 54 *)
Definition asset_code_clean (code : string) : string :=
  upper (replace "_OTC" EmptyString (replace "_otc" EmptyString code)).

(** Line 56 *)
Definition code_matches (clean code : string) : bool :=
  let code_clean := asset_code_clean code in
  contains clean code_clean || contains code_clean clean.

(** Lines 53-62: the first code that matches *)
Fixpoint find_code (clean : string) (codes : list string) : option string :=
  match codes with
  | [] => None
  | code :: rest =>
      if code_matches clean code then Some code else find_code clean rest
  end.

(** Lines 49-62 *)
Fixpoint pairs_with_codes (names : list (string * Q)) (all_assets : Dict) : list Pair :=
  match names with
  | [] => []
  | (name, p) :: rest =>
      match find_code (display_clean name) (first_n 100 (map fst all_assets)) with
      | Some code =>
          {| asset_code := code; payout := p; display_name := name |}
            :: pairs_with_codes rest all_assets
      | None => pairs_with_codes rest all_assets
      end
  end.

(** Line 65: stable sort, highest payout first *)
Fixpoint insert_by_payout (x : Pair) (l : list Pair) : list Pair :=
  match l with
  | [] => [x]
  | y :: ys =>
      if Qltb (payout x) (payout y) then y :: insert_by_payout x ys
      else x :: y :: ys
  end.

Definition sort_by_payout (l : list Pair) : list Pair :=
  fold_right insert_by_payout [] l.

Definition is_empty_dict (d : option Dict) : bool :=
  match d with
  | None => true
  | Some [] => true
  | Some (_ :: _) => false
  end.

Definition dict_items (d : option Dict) : Dict :=
  match d with
  | None => []
  | Some l => l
  end.

(** Lines 23-66 *)
Definition get_high_payout_pairs (w : World) : M (list Pair) :=
  c <- read_client ;;
  match c with
  | None => ret []
  | Some cl =>
      payment_data <- call EvGetPayment (fun h => get_payment w h cl) ;;
      all_assets <- call EvGetAllAssets (fun h => get_all_assets w h cl) ;;
      if is_empty_dict payment_data || is_empty_dict all_assets then ret []
      else
        ret (first_n 10 (sort_by_payout
               (pairs_with_codes (high_payout_names (dict_items payment_data))
                                 (dict_items all_assets))))
  end.

(** ** Analysis of one instrument: [analyze_pair] *)

(** The dict returned on lines 143-152. *)
Record Signal : Type := {
  pair : string;
  direction : string;
  confidence : string;
  time_frame : string;
  current_price : Q;
  support : Q;
  resistance : Q;
  logic : string
}.

(** The values lines 83-103 compute and lines 109-152 read. *)
Record Snapshot : Type := {
  snap_current_price : Q;
  snap_support : Q;
  snap_resistance : Q;
  snap_ma20 : Q;
  snap_ma5 : Q;
  snap_rsi : Q
}.

(** [range(a, b)] *)
Definition range (a b : Z) : list Z :=
  map (fun k => a + Z.of_nat k) (seq 0 (Z.to_nat (b - a))).

(** Lines 94-98: one pass of the loop body per index *)
Fixpoint rsi_split (closes : list Q) (idx : list Z) (gains losses : list Q)
  : Result (list Q * list Q) :=
  match idx with
  | [] => Ok (gains, losses)
  | i :: rest =>
      bind (index closes (i + 1)) (fun b =>
      bind (index closes i) (fun a =>
        let diff := (b - a)%Q in
        if Qle_bool 0 diff
        then rsi_split closes rest (append gains diff) losses
        else rsi_split closes rest gains (append losses (Qabs diff))))
  end.

Definition is_nil {A : Type} (l : list A) : bool :=
  match l with
  | [] => true
  | _ :: _ => false
  end.

(** Line 100 and line 101 *)
Definition avg_or_epsilon (side : list Q) : Q :=
  if is_nil side then 0.0001%Q else quotient (sum side) 14.

(** Lines 94-103 *)
Definition rsi_of (closes : list Q) : Result Q :=
  bind (rsi_split closes (range (-15) (-1)) [] []) (fun gl =>
    let avg_gain := avg_or_epsilon (fst gl) in
    let avg_loss := avg_or_epsilon (snd gl) in
    bind (div avg_gain avg_loss) (fun rs =>
    bind (div 100 (1 + rs)) (fun t =>
      Ok (100 - t)%Q))).

(** Lines 83-107; [None] is the volatility filter's [return None]. *)
Definition snapshot_of (closes highs lows : list Q) : Result (option Snapshot) :=
  bind (index closes (-1)) (fun current_price =>
  bind (max (last_n 20 highs)) (fun resistance =>
  bind (min (last_n 20 lows)) (fun support =>
    let ma20 := quotient (sum (last_n 20 closes)) 20 in
    let ma5 := quotient (sum (last_n 5 closes)) 5 in
    bind (rsi_of closes) (fun rsi =>
    bind (max (last_n 10 closes)) (fun hi =>
    bind (min (last_n 10 closes)) (fun lo =>
      if Qltb (hi - lo) 0.00005 then Ok None
      else Ok (Some {| snap_current_price := current_price;
                       snap_support := support;
                       snap_resistance := resistance;
                       snap_ma20 := ma20;
                       snap_ma5 := ma5;
                       snap_rsi := rsi |}))))))).

(** Lines 112-118 *)
Definition trend_check (ma5 ma20 : Q) (score : Z) (logic : list string)
  : Z * list string :=
  if Qltb ma20 ma5
  then (score + 40, append logic "MA5 crossed above MA20 (Short-term Uptrend)")
  else (score - 40, append logic "MA5 crossed below MA20 (Short-term Downtrend)").

(** Lines 120-126 *)
Definition rsi_check (rsi : Q) (score : Z) (logic : list string)
  : Z * list string :=
  if Qltb rsi 40 then
    (score + 40,
     append logic ("RSI is oversold (" ++ format_1f rsi
                   ++ "), indicating potential reversal upward"))
  else if Qltb 60 rsi then
    (score - 40,
     append logic ("RSI is overbought (" ++ format_1f rsi
                   ++ "), indicating potential reversal downward"))
  else (score, logic).

(** Lines 128-131 *)
Definition distance_check (current_price ma20 : Q) (score : Z) (logic : list string)
  : Result (Z * list string) :=
  bind (div (Qabs (current_price - ma20)) ma20) (fun d =>
    if Qltb d 0.002
    then Ok (score + (if score >? 0 then 20 else -20),
             append logic "Price is testing the 20 MA baseline")
    else Ok (score, logic)).

(** Lines 109-126: the score and the rationale after trend and momentum *)
Definition running_score (s : Snapshot) : Z * list string :=
  let '(score, logic) := trend_check (snap_ma5 s) (snap_ma20 s) 0 [] in
  rsi_check (snap_rsi s) score logic.

(** Lines 109-131: the score and the rationale lines *)
Definition score_of (s : Snapshot) : Result (Z * list string) :=
  let '(score, logic) := running_score s in
  distance_check (snap_current_price s) (snap_ma20 s) score logic.

(** Lines 133-152 *)
Definition compile_signal (display_name : string) (s : Snapshot)
    (score : Z) (logic : list string) : option Signal :=
  let build direction confidence :=
    Some {| pair := display_name;
            direction := direction;
            confidence := str_int confidence ++ "%";
            time_frame := "1 Minute";
            current_price := round5 (snap_current_price s);
            support := round5 (snap_support s);
            resistance := round5 (snap_resistance s);
            logic := join " | " logic |} in
  if score >=? 60 then build "CALL 🟢" (Z.min score 98)
  else if score <=? -60 then build "PUT 🔴" (Z.min (Z.abs score) 98)
  else None.

(** Lines 109-152: the scoring engine *)
Definition scoring_engine (display_name : string) (s : Snapshot)
  : Result (option Signal) :=
  bind (score_of s) (fun sl =>
    Ok (compile_signal display_name s (fst sl) (snd sl))).

(** Lines 79-81 *)
Definition closes_of (candles : list Candle) : Result (list Q) :=
  mapM (fun c => float (dict_get c "close" (VNum 0))) candles.

Definition highs_of (candles : list Candle) (closes : list Q) : Result (list Q) :=
  mapM (fun ci => float (dict_get (fst ci) "max"
                           (dict_get (fst ci) "high" (VNum (snd ci)))))
       (combine candles closes).

Definition lows_of (candles : list Candle) (closes : list Q) : Result (list Q) :=
  mapM (fun ci => float (dict_get (fst ci) "min"
                           (dict_get (fst ci) "low" (VNum (snd ci)))))
       (combine candles closes).

(** Lines 79-107: from the candles to the indicator values *)
Definition indicators_of (candles : list Candle) : Result (option Snapshot) :=
  bind (closes_of candles) (fun closes =>
  bind (highs_of candles closes) (fun highs =>
  bind (lows_of candles closes) (fun lows =>
    snapshot_of closes highs lows))).

(** Lines 79-152, on the candles that reach line 79 *)
Definition analyze_candles (display_name : string) (candles : list Candle)
  : Result (option Signal) :=
  bind (indicators_of candles) (fun snap =>
    match snap with
    | None => Ok None
    | Some s => scoring_engine display_name s
    end).

(** Lines 73-77: the candles that reach line 79; [None] is line 74's
    [return None]. *)
Definition prepare_candles (w : World) (fetched : option (list Candle))
  : Result (option (list Candle)) :=
  match fetched with
  | None => Ok None
  | Some candles =>
      if is_nil candles || (Z.of_nat (List.length candles) <? 30) then Ok None
      else
        bind (match candles with
              | c0 :: _ =>
                  if negb (truthy (dict_get c0 "open" VNone))
                  then process_candles w candles 60
                  else Ok candles
              | [] => Raise IndexError
              end)
             (fun cs => Ok (Some cs))
  end.

(** Lines 73-152: the body of the [try] after the fetch *)
Definition analyze_fetched (w : World) (display_name : string)
    (fetched : option (list Candle)) : Result (option Signal) :=
  bind (prepare_candles w fetched) (fun prepared =>
    match prepared with
    | None => Ok None
    | Some candles => analyze_candles display_name candles
    end).

(** Lines 71-152: the body of the [try] *)
Definition analyze_pair_body (w : World) (asset_code display_name : string)
  : M (option Signal) :=
  cl <- client_attr ;;
  candles <- call (EvGetCandles asset_code 3600 60)
                  (fun h => get_candles w h cl asset_code) ;;
  lift (analyze_fetched w display_name candles).

(** Lines 68-156 *)
Definition analyze_pair (w : World) (asset_code display_name : string)
  : M (option Signal) :=
  try_except (analyze_pair_body w asset_code display_name)
             (fun e => print asset_code e ;;; ret None).

(** A run of [analyze_pair] reaches line 109 with the indicator values
    [snap]: the fetch answers, the candles pass lines 73-77 and the
    volatility filter lets them through. *)
Definition reaches_scoring (w : World) (code : string) (st : State)
    (snap : Snapshot) : Prop :=
  exists cl fetched candles,
    bot_client st = Some cl /\
    get_candles w (trace st) cl code = Ok fetched /\
    prepare_candles w fetched = Ok (Some candles) /\
    indicators_of candles = Ok (Some snap).

(** What [analyze_pair] returns for what the scoring engine did: an
    exception becomes [None]. *)
Definition caught (r : Result (option Signal)) : option Signal :=
  match r with
  | Ok sig => sig
  | Raise _ => None
  end.

(** ** Endpoints *)

Record LoginRequest : Type := {
  req_email : string;
  req_password : string
}.

(** The JSON bodies the endpoints return. *)
Inductive Response : Type :=
| Message (status message : string)
| Data (status : string) (data : Signal).

Definition status_of (r : Response) : string :=
  match r with
  | Message status _ => status
  | Data status _ => status
  end.

(** Lines 158-176 *)
Definition login (w : World) (req : LoginRequest) : M Response :=
  try_except
    (old <- read_client ;;
     (match old with
      | Some c => call (EvClose c) (fun h => close w h c)
      | None => ret tt
      end) ;;;
     let c := Quotex (req_email req) (req_password req) "en" in
     write_client (Some c) ;;;
     cr <- call (EvConnect c) (fun h => connect w h c) ;;
     if fst cr then
       write_client (Some (set_account_mode "PRACTICE" c)) ;;;
       ret (Message "success" "Successfully connected to Quotex websocket.")
     else
       write_client None ;;;
       raise (HTTPException 401 ("Login failed: " ++ snd cr)))
    (fun e => raise (HTTPException 500 (exn_str w e))).

(** Line 196 *)
Definition conf_int_of (signal : Signal) : Result Z :=
  int_str (replace "%" EmptyString (confidence signal)).

(** How one pass of the loop body ends: [break], or on to the next pair
    with the updated [best_signal] and [highest_confidence]. *)
Inductive LoopCtl : Type :=
| Break (best_signal : option Signal)
| Continue (best_signal : option Signal) (highest_confidence : Z).

(** Lines 193-206: the loop body *)
Definition loop_body (w : World) (p : Pair)
    (best_signal : option Signal) (highest_confidence : Z) : M LoopCtl :=
  signal <- analyze_pair w (asset_code p) (display_name p) ;;
  match signal with
  | Some s =>
      conf_int <- lift (conf_int_of s) ;;
      let better := conf_int >? highest_confidence in
      let highest_confidence' := if better then conf_int else highest_confidence in
      let best_signal' := if better then Some s else best_signal in
      if highest_confidence' >=? 90 then ret (Break best_signal')
      else sleep ;;; ret (Continue best_signal' highest_confidence')
  | None => sleep ;;; ret (Continue best_signal highest_confidence)
  end.

(** Lines 192-206: the loop, from the values of [best_signal] and
    [highest_confidence] on entry *)
Fixpoint select_loop (w : World) (pairs : list Pair)
    (best_signal : option Signal) (highest_confidence : Z) : M (option Signal) :=
  match pairs with
  | [] => ret best_signal
  | p :: rest =>
      ctl <- loop_body w p best_signal highest_confidence ;;
      match ctl with
      | Break best => ret best
      | Continue best highest => select_loop w rest best highest
      end
  end.

(** Lines 178-211 *)
Definition get_signal (w : World) : M Response :=
  c <- read_client ;;
  match c with
  | None => raise (HTTPException 401 "Bot is not logged in. Call /login first.")
  | Some _ =>
      pairs <- get_high_payout_pairs w ;;
      if is_nil pairs then
        ret (Message "error" "Could not find any high payout pairs currently open.")
      else
        best_signal <- select_loop w pairs None 0 ;;
        match best_signal with
        | Some s => ret (Data "success" s)
        | None =>
            ret (Message "waiting"
                   "No strong setups found right now. Try again in 1 minute.")
        end
  end.

(** The passes of one run of the loop: [at_iteration w pairs best hi st
    rest best' hi' st'] says that the loop entered with [pairs], [best],
    [hi] in state [st] comes to the top of the loop again with [rest]
    still to do, after passes that all ended without [break]. *)
Inductive at_iteration (w : World)
    (pairs : list Pair) (best : option Signal) (hi : Z) (st : State)
  : list Pair -> option Signal -> Z -> State -> Prop :=
| at_start : at_iteration w pairs best hi st pairs best hi st
| at_next p rest best1 hi1 st1 best2 hi2 st2 :
    at_iteration w pairs best hi st (p :: rest) best1 hi1 st1 ->
    loop_body w p best1 hi1 st1 = (Ok (Continue best2 hi2), st2) ->
    at_iteration w pairs best hi st rest best2 hi2 st2.

(** ** Vocabulary of the further properties *)

(** Highest payout first. *)
Fixpoint descending (l : list Pair) : Prop :=
  match l with
  | [] => True
  | a :: rest =>
      match rest with
      | [] => True
      | b :: _ => (payout b <= payout a)%Q
      end /\ descending rest
  end.

(** The pairs of a list whose payout equals [q], in the order of the list. *)
Definition with_payout (q : Q) (l : list Pair) : list Pair :=
  filter (fun p => Qeq_bool (payout p) q) l.

(** [best_signal] and [highest_confidence] agree: no signal yet and 0, or
    a signal and its own confidence. *)
Definition consistent (best : option Signal) (hi : Z) : Prop :=
  match best with
  | None => hi = 0
  | Some b => conf_int_of b = Ok hi /\ 0 < hi
  end.

(** The pairs the resolver hands to the loop; none when it raises. *)
Definition ranked (w : World) (st : State) : list Pair :=
  match fst (get_high_payout_pairs w st) with
  | Ok pairs => pairs
  | Raise _ => []
  end.

(** Every character of [s] passes the test [ok]. *)
Fixpoint all_chars (ok : ascii -> bool) (s : string) : bool :=
  match s with
  | EmptyString => true
  | String c rest => ok c && all_chars ok rest
  end.

Definition is_lower (c : ascii) : bool :=
  let n := nat_of_ascii c in ((97 <=? n) && (n <=? 122))%nat.

(** No slash, no space, no lower-case letter. *)
Definition plain (c : ascii) : bool :=
  negb (Ascii.eqb c "/") && negb (Ascii.eqb c " ") && negb (is_lower c).

(** The asset codes of the candle fetches of a trace, in order. *)
Fixpoint fetched_codes (tr : list Event) : list string :=
  match tr with
  | [] => []
  | EvGetCandles code _ _ :: rest => code :: fetched_codes rest
  | _ :: rest => fetched_codes rest
  end.

(** ** Sample data

    Concrete candles, snapshots and connectors on which the statements
    below are run. *)

Module Sample.

Definition candle (close_price : Q) : Candle :=
  [("open", VNum close_price); ("close", VNum close_price)].

(** Ten candles at 1.0, five at 0.979, then fifteen falling by 0.001 from
    1.014 to 1.000: fast average above slow, falling RSI window, last
    price on the slow average. *)
Definition falling_onto_baseline : list Candle :=
  map candle (repeat 1%Q 10 ++ repeat 0.979%Q 5
              ++ map (fun k => 1.014 - inject_Z (Z.of_nat k) / 1000)%Q (seq 0 15)).

(** The same last twenty candles after a different start. *)
Definition falling_onto_baseline_late : list Candle :=
  map candle (repeat 3%Q 12 ++ repeat 0.979%Q 5
              ++ map (fun k => 1.014 - inject_Z (Z.of_nat k) / 1000)%Q (seq 0 15)).


Definition snapshot (price ma20 ma5 rsi : Q) : Snapshot :=
  {| snap_current_price := price; snap_support := price;
     snap_resistance := price; snap_ma20 := ma20; snap_ma5 := ma5;
     snap_rsi := rsi |}.

(** The scenario of the specification: score 100. *)
Definition strong_up : Snapshot := snapshot 1.2005 1.2 1.205 35.

(** Trend and baseline only: score 60. *)
Definition weak_up : Snapshot := snapshot 1.2005 1.2 1.205 50.

(** The mirror image: score -60. *)
Definition weak_down : Snapshot := snapshot 1.2005 1.2 1.195 50.

(** Trend and momentum away from the baseline: score 80. *)
Definition medium_up : Snapshot := snapshot 1.3 1.2 1.205 35.

(** Uptrend and overbought on the baseline: trend and momentum cancel. *)
Definition cancelling : Snapshot := snapshot 1.2005 1.2 1.205 70.

Definition eurusd_entry (p : Q) : Dict :=
  [("EUR/USD (OTC)",
    VDict [("open", VBool true); ("profit", VDict [("1M", VNum p)])])].

Definition catalog : Dict := [("EURUSD_otc", VNone)].

Definition str (e : Exn) : string :=
  match e with
  | ConnectorError msg => msg
  | HTTPException code detail => str_int code ++ ": " ++ detail
  | _ => "error"
  end.

(** A connector that accepts every login, offers EUR/USD at the given
    payout and serves the given candles. *)
Definition world (p : Q) (candles : list Candle) : World :=
  {| close := fun _ _ => Ok tt;
     connect := fun _ _ => Ok (true, "ok");
     get_payment := fun _ _ => Ok (Some (eurusd_entry p));
     get_all_assets := fun _ _ => Ok (Some catalog);
     get_candles := fun _ _ _ => Ok (Some candles);
     process_candles := fun cs _ => Ok cs;
     exn_str := str |}.

(** Two eligible instruments, EUR/USD paying more than GBP/USD. *)
Definition two_entries : Dict :=
  [("GBP/USD (OTC)",
    VDict [("open", VBool true); ("profit", VDict [("1M", VNum 92)])]);
   ("EUR/USD (OTC)",
    VDict [("open", VBool true); ("profit", VDict [("1M", VNum 95)])])].

Definition two_codes : Dict := [("EURUSD_otc", VNone); ("GBPUSD_otc", VNone)].

Definition world_two : World :=
  {| close := fun _ _ => Ok tt;
     connect := fun _ _ => Ok (true, "ok");
     get_payment := fun _ _ => Ok (Some two_entries);
     get_all_assets := fun _ _ => Ok (Some two_codes);
     get_candles := fun _ _ _ => Ok (Some falling_onto_baseline);
     process_candles := fun cs _ => Ok cs;
     exn_str := str |}.

Definition eurusd_95 : Pair :=
  {| asset_code := "EURUSD_otc"; payout := 95; display_name := "EUR/USD (OTC)" |}.

Definition gbpusd_92 : Pair :=
  {| asset_code := "GBPUSD_otc"; payout := 92; display_name := "GBP/USD (OTC)" |}.

Definition after_resolver : State :=
  {| bot_client := Some (Quotex "a@b.c" "secret" "en");
     trace := [EvGetPayment; EvGetAllAssets] |}.

(** The same connector with a candle fetch that always fails. *)
Definition world_fetch_fails : World :=
  {| close := fun _ _ => Ok tt;
     connect := fun _ _ => Ok (true, "ok");
     get_payment := fun _ _ => Ok (Some (eurusd_entry 92));
     get_all_assets := fun _ _ => Ok (Some catalog);
     get_candles := fun _ _ _ => Raise (ConnectorError "timeout");
     process_candles := fun cs _ => Ok cs;
     exn_str := str |}.

(** A connector whose [connect] raises. *)
Definition world_connect_raises : World :=
  {| close := fun _ _ => Ok tt;
     connect := fun _ _ => Raise (ConnectorError "timeout");
     get_payment := fun _ _ => Ok None;
     get_all_assets := fun _ _ => Ok None;
     get_candles := fun _ _ _ => Ok None;
     process_candles := fun cs _ => Ok cs;
     exn_str := str |}.

Definition client : Client := Quotex "a@b.c" "secret" "en".

Definition logged_in : State := {| bot_client := Some client; trace := [] |}.

Definition logged_out : State := {| bot_client := None; trace := [] |}.

(** A session that has already served one request. *)
Definition logged_in_later : State :=
  {| bot_client := Some (set_account_mode "PRACTICE" client);
     trace := [EvGetPayment; EvGetAllAssets] |}.

Definition request : LoginRequest :=
  {| req_email := "a@b.c"; req_password := "secret" |}.

Definition eurusd : Pair :=
  {| asset_code := "EURUSD_otc"; payout := 92; display_name := "EUR/USD (OTC)" |}.

End Sample.

(** ** More sample data *)

Module Cases.

(** An entry whose 1-minute payout is [None]: [float] raises on it. *)
Definition broken_entry : Val :=
  VDict [("open", VBool true); ("profit", VDict [("1M", VNone)])].

Definition open_entry (p : Q) : Val :=
  VDict [("open", VBool true); ("profit", VDict [("1M", VNum p)])].

(** A hundred codes that match nothing, then the EUR/USD code. *)
Definition long_catalog : Dict := repeat ("ZZZ", VNone) 100.

Definition pair_a : Pair :=
  {| asset_code := "A"; payout := 92; display_name := "first" |}.

Definition pair_b : Pair :=
  {| asset_code := "B"; payout := 95; display_name := "second" |}.

Definition pair_c : Pair :=
  {| asset_code := "C"; payout := 92; display_name := "third" |}.

(** Thirty closes going 1, -1, 1, -1, ...: the last twenty sum to zero. *)
Definition alternating : list Candle :=
  map Sample.candle (flat_map (fun _ => [1%Q; (-1)%Q]) (seq 0 15)).

(** Thirty candles at one price. *)
Definition flat : list Candle := repeat (Sample.candle 1.2) 30.

(** Twenty-nine candles. *)
Definition too_few : list Candle := repeat (Sample.candle 1.2) 29.

(** A connector whose [close] raises. *)
Definition world_close_raises : World :=
  {| close := fun _ _ => Raise (ConnectorError "socket already closed");
     connect := fun _ _ => Ok (true, "ok");
     get_payment := fun _ _ => Ok None;
     get_all_assets := fun _ _ => Ok None;
     get_candles := fun _ _ _ => Ok None;
     process_candles := fun cs _ => Ok cs;
     exn_str := Sample.str |}.


End Cases.

(** * Properties *)

(** ** Scoring: the values the score can take *)

Lemma Qltb_true (x y : Q) : Qltb x y = true <-> (x < y)%Q.
Proof.
  unfold Qltb. rewrite negb_true_iff. split.
  - intros H. apply Qnot_le_lt. intros Hle.
    apply Qle_bool_iff in Hle. congruence.
  - intros H. destruct (Qle_bool y x) eqn:E; [|reflexivity].
    apply Qle_bool_iff in E. exfalso. exact (Qlt_not_le _ _ H E).
Qed.

Lemma Qltb_false (x y : Q) : Qltb x y = false <-> (y <= x)%Q.
Proof.
  unfold Qltb. rewrite negb_false_iff. apply Qle_bool_iff.
Qed.

Lemma trend_check_score (ma5 ma20 : Q) (score : Z) (lines : list string) :
  fst (trend_check ma5 ma20 score lines) = score + 40 \/
  fst (trend_check ma5 ma20 score lines) = score - 40.
Proof.
  unfold trend_check. destruct (Qltb ma20 ma5); simpl; auto.
Qed.

Lemma rsi_check_score (rsi : Q) (score : Z) (lines : list string) :
  fst (rsi_check rsi score lines) = score + 40 \/
  fst (rsi_check rsi score lines) = score - 40 \/
  fst (rsi_check rsi score lines) = score.
Proof.
  unfold rsi_check.
  destruct (Qltb rsi 40); [simpl; auto|].
  destruct (Qltb 60 rsi); simpl; auto.
Qed.

Lemma distance_check_score (price ma20 : Q) (score score' : Z)
    (lines lines' : list string) :
  distance_check price ma20 score lines = Ok (score', lines') ->
  score' = score \/
  (0 < score /\ score' = score + 20) \/
  (score <= 0 /\ score' = score - 20).
Proof.
  unfold distance_check, div, bind.
  destruct (Qeq_bool ma20 0); [discriminate|].
  destruct (Qltb _ _); intros H; inversion H; subst; clear H; auto.
  destruct (score >? 0) eqn:E.
  - right; left. apply Z.gtb_lt in E. lia.
  - right; right. rewrite Z.gtb_ltb in E. apply Z.ltb_ge in E. lia.
Qed.

Lemma score_of_values (s : Snapshot) (score : Z) (lines : list string) :
  score_of s = Ok (score, lines) ->
  In score [100; 80; 60; 40; 0; -20; -40; -60; -80; -100].
Proof.
  unfold score_of, running_score. intros H.
  destruct (trend_check (snap_ma5 s) (snap_ma20 s) 0 []) as [s1 l1] eqn:E1.
  destruct (rsi_check (snap_rsi s) s1 l1) as [s2 l2] eqn:E2.
  pose proof (trend_check_score (snap_ma5 s) (snap_ma20 s) 0 []) as T.
  pose proof (rsi_check_score (snap_rsi s) s1 l1) as R.
  rewrite E1 in T. rewrite E2 in R. simpl in T, R.
  apply distance_check_score in H.
  simpl. lia.
Qed.

(** ** Scoring: from the score to the signal *)

Lemma compile_signal_some (name : string) (s : Snapshot) (score : Z)
    (lines : list string) (sig : Signal) :
  compile_signal name s score lines = Some sig ->
  (60 <= score \/ score <= -60) /\
  confidence sig = str_int (Z.min (Z.abs score) 98) ++ "%" /\
  pair sig = name /\
  logic sig = join " | " lines.
Proof.
  unfold compile_signal.
  destruct (score >=? 60) eqn:E1.
  - intros H. inversion H; subst; clear H. simpl.
    apply Z.geb_le in E1. rewrite (Z.abs_eq score) by lia. auto.
  - destruct (score <=? -60) eqn:E2; [|discriminate].
    intros H. inversion H; subst; clear H. simpl.
    apply Z.leb_le in E2. auto.
Qed.

Lemma compile_signal_strong (name : string) (s : Snapshot) (score : Z)
    (lines : list string) :
  60 <= score \/ score <= -60 ->
  exists sig, compile_signal name s score lines = Some sig.
Proof.
  unfold compile_signal. intros H.
  destruct (score >=? 60) eqn:E1; [eauto|].
  destruct (score <=? -60) eqn:E2; [eauto|].
  rewrite Z.geb_leb in E1. apply Z.leb_gt in E1. apply Z.leb_gt in E2. lia.
Qed.

Lemma compile_signal_weak (name : string) (s : Snapshot) (score : Z)
    (lines : list string) :
  -60 < score < 60 -> compile_signal name s score lines = None.
Proof.
  unfold compile_signal. intros H.
  destruct (score >=? 60) eqn:E1.
  - apply Z.geb_le in E1. lia.
  - destruct (score <=? -60) eqn:E2; [|reflexivity].
    apply Z.leb_le in E2. lia.
Qed.

Lemma scoring_engine_some (name : string) (s : Snapshot) (sig : Signal) :
  scoring_engine name s = Ok (Some sig) ->
  exists score lines,
    score_of s = Ok (score, lines) /\
    compile_signal name s score lines = Some sig.
Proof.
  unfold scoring_engine, bind.
  destruct (score_of s) as [[score lines]|e]; [|discriminate].
  simpl. intros H. inversion H. eauto.
Qed.

(** The confidence string of a signal is one of three, and reads back as
    the number it was printed from. *)
Lemma signal_confidence (name : string) (s : Snapshot) (sig : Signal) :
  scoring_engine name s = Ok (Some sig) ->
  exists c, In c [60; 80; 98] /\
            confidence sig = str_int c ++ "%" /\
            conf_int_of sig = Ok c.
Proof.
  intros H. apply scoring_engine_some in H.
  destruct H as (score & lines & Hs & Hc).
  apply score_of_values in Hs.
  apply compile_signal_some in Hc.
  destruct Hc as (Hstrong & Hconf & _).
  exists (Z.min (Z.abs score) 98).
  unfold conf_int_of. rewrite Hconf.
  simpl in Hs.
  destruct Hs as [<-|[<-|[<-|[<-|[<-|[<-|[<-|[<-|[<-|[<-|[]]]]]]]]]]];
    try lia; (split; [simpl; auto | split; reflexivity]).
Qed.

(** C4: every signal the scoring engine produces carries an integer
    confidence between 60 and 98; a score of at least 60 in magnitude
    (60 and -60 included) gives a signal whose confidence is the magnitude
    capped at 98, and any smaller score gives no signal. *)
Theorem confidence_in_range :
  (forall name s sig,
      scoring_engine name s = Ok (Some sig) ->
      exists c, confidence sig = str_int c ++ "%" /\
                conf_int_of sig = Ok c /\ 60 <= c <= 98) /\
  (forall name s score lines,
      score_of s = Ok (score, lines) ->
      60 <= score \/ score <= -60 ->
      exists sig, scoring_engine name s = Ok (Some sig) /\
                  conf_int_of sig = Ok (Z.min (Z.abs score) 98)) /\
  (forall name s score lines,
      score_of s = Ok (score, lines) ->
      -60 < score < 60 ->
      scoring_engine name s = Ok None).
Proof.
  split; [|split].
  - intros name s sig H.
    destruct (signal_confidence name s sig H) as (c & Hin & Hstr & Hint).
    exists c. repeat split; auto; simpl in Hin; lia.
  - intros name s score lines Hs Hstrong.
    pose proof (score_of_values s score lines Hs) as Hin.
    unfold scoring_engine. rewrite Hs. simpl in Hin |- *.
    destruct Hin as [<-|[<-|[<-|[<-|[<-|[<-|[<-|[<-|[<-|[<-|[]]]]]]]]]]];
      try lia; (eexists; split; reflexivity).
  - intros name s score lines Hs Hweak.
    unfold scoring_engine. rewrite Hs. simpl.
    now rewrite compile_signal_weak.
Qed.

Lemma confidence_in_range_witness :
  (exists sig, scoring_engine "EUR/USD (OTC)" Sample.weak_up = Ok (Some sig) /\
               conf_int_of sig = Ok 60) /\
  (exists sig, scoring_engine "EUR/USD (OTC)" Sample.weak_down = Ok (Some sig) /\
               conf_int_of sig = Ok 60) /\
  scoring_engine "EUR/USD (OTC)" Sample.cancelling = Ok None.
Proof.
  destruct confidence_in_range as (_ & Hstrong & Hweak).
  split; [|split].
  - apply (Hstrong _ Sample.weak_up 60
             ["MA5 crossed above MA20 (Short-term Uptrend)";
              "Price is testing the 20 MA baseline"]);
      [reflexivity | lia].
  - apply (Hstrong _ Sample.weak_down (-60)
             ["MA5 crossed below MA20 (Short-term Downtrend)";
              "Price is testing the 20 MA baseline"]);
      [reflexivity | lia].
  - apply (Hweak _ Sample.cancelling (-20)
             ["MA5 crossed above MA20 (Short-term Uptrend)";
              "RSI is overbought (70.0), indicating potential reversal downward";
              "Price is testing the 20 MA baseline"]);
      [reflexivity | lia].
Defined.

(** C10: the confidence of a signal is 60, 80 or 98 and nothing else, and
    each of the three is reached by some snapshot. *)
Theorem confidence_three_values :
  (forall name s sig,
      scoring_engine name s = Ok (Some sig) ->
      (confidence sig = "60%" /\ conf_int_of sig = Ok 60) \/
      (confidence sig = "80%" /\ conf_int_of sig = Ok 80) \/
      (confidence sig = "98%" /\ conf_int_of sig = Ok 98)) /\
  (forall c, In c [60; 80; 98] ->
      exists s sig, scoring_engine "EUR/USD (OTC)" s = Ok (Some sig) /\
                    conf_int_of sig = Ok c).
Proof.
  split.
  - intros name s sig H.
    destruct (signal_confidence name s sig H) as (c & Hin & Hstr & Hint).
    simpl in Hin.
    destruct Hin as [<-|[<-|[<-|[]]]]; rewrite Hstr, Hint; auto.
  - intros c Hin. simpl in Hin.
    destruct Hin as [<-|[<-|[<-|[]]]].
    + exists Sample.weak_up. eexists. split; reflexivity.
    + exists Sample.medium_up. eexists. split; reflexivity.
    + exists Sample.strong_up. eexists. split; reflexivity.
Qed.

Lemma confidence_three_values_witness :
  exists sig, scoring_engine "EUR/USD (OTC)" Sample.medium_up = Ok (Some sig) /\
              confidence sig = "80%" /\ conf_int_of sig = Ok 80.
Proof.
  destruct (scoring_engine "EUR/USD (OTC)" Sample.medium_up)
    as [[sig|]|e] eqn:E; try discriminate.
  exists sig. split; [reflexivity|].
  destruct (proj1 confidence_three_values _ _ _ E) as [[H1 H2]|[H|[H1 H2]]].
  - exfalso. inversion E; subst. discriminate.
  - exact H.
  - exfalso. inversion E; subst. discriminate.
Defined.

(** C2, as the code has it: when the score after the trend and momentum
    terms is exactly 0 and the price is within 0.2% of the slow average,
    lines 129-131 subtract 20 and add the baseline line; the score
    becomes -20 instead of staying 0. *)
Theorem distance_check_on_zero_score (s : Snapshot) (d : Q) :
  fst (running_score s) = 0 ->
  div (Qabs (snap_current_price s - snap_ma20 s)) (snap_ma20 s) = Ok d ->
  (d < 0.002)%Q ->
  score_of s =
    Ok (-20, append (snd (running_score s)) "Price is testing the 20 MA baseline").
Proof.
  intros Hzero Hdiv Hnear.
  unfold score_of.
  destruct (running_score s) as [score lines]. simpl in Hzero |- *. subst score.
  unfold distance_check. rewrite Hdiv. simpl.
  apply Qltb_true in Hnear. now rewrite Hnear.
Qed.

Lemma distance_check_on_zero_score_witness :
  score_of Sample.cancelling =
    Ok (-20,
        ["MA5 crossed above MA20 (Short-term Uptrend)";
         "RSI is overbought (70.0), indicating potential reversal downward";
         "Price is testing the 20 MA baseline"]).
Proof.
  apply (distance_check_on_zero_score Sample.cancelling
           (Qabs (1.2005 - 1.2) / 1.2)%Q).
  - reflexivity.
  - reflexivity.
  - reflexivity.
Defined.

(** ** The scoring engine reads its snapshot only *)

Lemma analyze_pair_reaches (w : World) (code name : string) (st : State)
    (snap : Snapshot) :
  reaches_scoring w code st snap ->
  fst (analyze_pair w code name st) = Ok (caught (scoring_engine name snap)).
Proof.
  intros (cl & fetched & candles & Hcl & Hfetch & Hprep & Hind).
  unfold analyze_pair, try_except, analyze_pair_body, client_attr, bindM,
    read_client, call, lift, ret.
  rewrite Hcl, Hfetch.
  unfold analyze_fetched. rewrite Hprep. simpl.
  unfold analyze_candles. rewrite Hind. simpl.
  destruct (scoring_engine name snap); reflexivity.
Qed.

(** C7: the outcome of the scoring engine is a function of the snapshot
    and the display name alone.  Two runs of the analysis that reach the
    scoring code with the same snapshot return the same signal (or both
    none), whatever the connector, the session, the history of calls and
    the asset code of each run. *)
Theorem scoring_engine_deterministic
    (w1 w2 : World) (code1 code2 name : string) (st1 st2 : State)
    (snap : Snapshot) :
  reaches_scoring w1 code1 st1 snap ->
  reaches_scoring w2 code2 st2 snap ->
  fst (analyze_pair w1 code1 name st1) = fst (analyze_pair w2 code2 name st2) /\
  fst (analyze_pair w1 code1 name st1) = Ok (caught (scoring_engine name snap)).
Proof.
  intros H1 H2.
  rewrite (analyze_pair_reaches w1 code1 name st1 snap H1).
  rewrite (analyze_pair_reaches w2 code2 name st2 snap H2).
  split; reflexivity.
Qed.

Lemma scoring_engine_deterministic_witness :
  fst (analyze_pair (Sample.world 92 Sample.falling_onto_baseline)
         "EURUSD_otc" "EUR/USD (OTC)" Sample.logged_in) =
  fst (analyze_pair (Sample.world 95 Sample.falling_onto_baseline_late)
         "EURUSD" "EUR/USD (OTC)" Sample.logged_in_later).
Proof.
  destruct (indicators_of Sample.falling_onto_baseline) as [[snap|]|e] eqn:E;
    try (vm_compute in E; discriminate).
  refine (proj1 (scoring_engine_deterministic
                   (Sample.world 92 Sample.falling_onto_baseline)
                   (Sample.world 95 Sample.falling_onto_baseline_late)
                   "EURUSD_otc" "EURUSD" "EUR/USD (OTC)"
                   Sample.logged_in Sample.logged_in_later snap _ _)).
  - exists Sample.client, (Some Sample.falling_onto_baseline),
      Sample.falling_onto_baseline.
    split; [reflexivity|]. split; [reflexivity|]. split; [reflexivity|].
    exact E.
  - exists (set_account_mode "PRACTICE" Sample.client),
      (Some Sample.falling_onto_baseline_late),
      Sample.falling_onto_baseline_late.
    split; [reflexivity|]. split; [reflexivity|]. split; [reflexivity|].
    rewrite <- E. vm_compute. reflexivity.
Defined.

(** ** The RSI window *)

Lemma index_negative {A : Type} (l : list A) (i : Z) :
  - Z.of_nat (List.length l) <= i < 0 ->
  exists x, index l i = Ok x.
Proof.
  intros [Hlo Hhi]. unfold index.
  destruct (i <? 0) eqn:E; [|apply Z.ltb_ge in E; lia].
  destruct ((Z.of_nat (List.length l) + i <? 0)
            || (Z.of_nat (List.length l) <=? Z.of_nat (List.length l) + i)) eqn:B.
  - apply orb_true_iff in B. destruct B as [B|B].
    + apply Z.ltb_lt in B. lia.
    + apply Z.leb_le in B. lia.
  - destruct (nth_error l (Z.to_nat (Z.of_nat (List.length l) + i))) eqn:N.
    + eauto.
    + apply nth_error_None in N. lia.
Qed.

Lemma range_window (i : Z) : In i (range (-15) (-1)) -> -15 <= i <= -2.
Proof.
  unfold range. rewrite in_map_iff. intros (k & <- & Hk).
  apply in_seq in Hk. simpl in Hk. lia.
Qed.

Lemma Forall_append {A : Type} (P : A -> Prop) (l : list A) (x : A) :
  Forall P l -> P x -> Forall P (append l x).
Proof.
  intros Hl Hx. unfold append. apply Forall_app. split; auto.
Qed.

(** The loop of lines 95-98 runs through when every index is in range, and
    keeps gains non-negative and losses positive. *)
Lemma rsi_split_ok (closes : list Q) (idx : list Z) :
  (forall i, In i idx -> - Z.of_nat (List.length closes) <= i /\ i + 1 < 0) ->
  forall gains losses,
    Forall (fun x => 0 <= x)%Q gains ->
    Forall (fun x => 0 < x)%Q losses ->
    exists g l,
      rsi_split closes idx gains losses = Ok (g, l) /\
      Forall (fun x => 0 <= x)%Q g /\
      Forall (fun x => 0 < x)%Q l.
Proof.
  induction idx as [|i rest IH]; intros Hidx gains losses Hg Hl.
  - simpl. eauto.
  - simpl.
    destruct (Hidx i (or_introl eq_refl)) as [Hlo Hhi].
    destruct (index_negative closes (i + 1)) as [b Hb]; [lia|].
    destruct (index_negative closes i) as [a Ha]; [lia|].
    rewrite Hb, Ha. simpl.
    assert (Hrest : forall j, In j rest ->
              - Z.of_nat (List.length closes) <= j /\ j + 1 < 0).
    { intros j Hj. apply Hidx. now right. }
    destruct (Qle_bool 0 (b - a)) eqn:E.
    + apply IH; auto. apply Forall_append; auto.
      cbv beta. now apply Qle_bool_iff.
    + apply IH; auto. apply Forall_append; auto.
      assert (Hneg : (b - a < 0)%Q).
      { apply Qnot_le_lt. intros Hle. apply Qle_bool_iff in Hle. congruence. }
      assert (Habs : (Qabs (b - a) == - (b - a))%Q) by (apply Qabs_neg; lra).
      cbv beta. rewrite Habs. lra.
Qed.

Lemma fold_left_Qplus_le (l : list Q) (a : Q) :
  Forall (fun x => 0 <= x)%Q l -> (a <= fold_left Qplus l a)%Q.
Proof.
  revert a. induction l as [|x l IH]; intros a Hl; simpl.
  - lra.
  - inversion Hl; subst. specialize (IH (a + x)%Q H2). lra.
Qed.

Lemma sum_nonneg (l : list Q) :
  Forall (fun x => 0 <= x)%Q l -> (0 <= sum l)%Q.
Proof.
  intros Hl. unfold sum. now apply fold_left_Qplus_le.
Qed.

Lemma sum_pos (l : list Q) :
  Forall (fun x => 0 < x)%Q l -> l <> [] -> (0 < sum l)%Q.
Proof.
  intros Hl Hne. unfold sum. destruct l as [|x l]; [congruence|].
  inversion Hl; subst. simpl.
  assert (Hle : Forall (fun x => 0 <= x)%Q l).
  { eapply Forall_impl; [|exact H2]. intros y Hy. simpl in Hy. lra. }
  pose proof (fold_left_Qplus_le l (0 + x)%Q Hle). lra.
Qed.

Lemma half_least_double_pos : (0 < half_least_double)%Q.
Proof. reflexivity. Qed.

Lemma quotient_small (x y : Q) :
  (Qabs (x / y) <= half_least_double)%Q -> quotient x y = 0%Q.
Proof.
  intros H. unfold quotient. apply Qle_bool_iff in H. now rewrite H.
Qed.

Lemma quotient_exact (x y : Q) :
  (half_least_double < Qabs (x / y))%Q -> quotient x y = (x / y)%Q.
Proof.
  intros H. unfold quotient.
  destruct (Qle_bool (Qabs (x / y)) half_least_double) eqn:E; [|reflexivity].
  apply Qle_bool_iff in E. exfalso. exact (Qlt_not_le _ _ H E).
Qed.

Lemma quotient_bounds (x y : Q) :
  (0 <= x)%Q -> (0 < y)%Q ->
  (0 <= quotient x y)%Q /\ (quotient x y <= x / y)%Q.
Proof.
  intros Hx Hy.
  assert (Hq : (0 <= x / y)%Q) by (apply Qle_shift_div_l; [exact Hy | lra]).
  unfold quotient.
  destruct (Qle_bool (Qabs (x / y)) half_least_double); split; lra.
Qed.

Lemma div_pos (x y : Q) : (0 < y)%Q -> div x y = Ok (quotient x y).
Proof.
  intros Hy. unfold div.
  destruct (Qeq_bool y 0) eqn:E; [|reflexivity].
  apply Qeq_bool_eq in E. lra.
Qed.

Lemma avg_or_epsilon_nonneg (side : list Q) :
  Forall (fun x => 0 <= x)%Q side -> (0 <= avg_or_epsilon side)%Q.
Proof.
  intros H. unfold avg_or_epsilon.
  destruct side as [|x l]; cbn [is_nil]; [lra|].
  apply quotient_bounds; [now apply sum_nonneg | lra].
Qed.

(** The average of a non-empty side of positive deltas is positive unless
    it underflows, and then it is zero. *)
Lemma avg_or_epsilon_side (side : list Q) :
  Forall (fun x => 0 < x)%Q side ->
  side <> [] ->
  ((half_least_double < sum side / 14)%Q ->
     avg_or_epsilon side = (sum side / 14)%Q) /\
  ((sum side / 14 <= half_least_double)%Q -> avg_or_epsilon side = 0%Q).
Proof.
  intros Hpos Hne.
  assert (Hq : (0 <= sum side / 14)%Q).
  { apply Qle_shift_div_l; [lra|]. pose proof (sum_pos side Hpos Hne). lra. }
  assert (Habs : (Qabs (sum side / 14) == sum side / 14)%Q)
    by (now apply Qabs_pos).
  unfold avg_or_epsilon. destruct side as [|x l]; [congruence|].
  cbn [is_nil]. split; intros H.
  - apply quotient_exact. rewrite Habs. exact H.
  - apply quotient_small. rewrite Habs. exact H.
Qed.

Lemma rsi_from_averages (avg_gain avg_loss : Q) :
  (0 <= avg_gain)%Q -> (0 < avg_loss)%Q ->
  exists rs rsi,
    div avg_gain avg_loss = Ok rs /\
    (0 < 1 + rs)%Q /\
    bind (div 100 (1 + rs)) (fun t => Ok (100 - t)%Q) = Ok rsi /\
    (0 <= rsi <= 100)%Q.
Proof.
  intros Hg Hl.
  destruct (quotient_bounds avg_gain avg_loss Hg Hl) as [Hrs _].
  assert (Hone : (0 < 1 + quotient avg_gain avg_loss)%Q) by lra.
  assert (H100 : (0 <= 100)%Q) by lra.
  destruct (quotient_bounds 100 (1 + quotient avg_gain avg_loss) H100 Hone)
    as [Hlo Hhi].
  assert (Hq : (100 / (1 + quotient avg_gain avg_loss) <= 100)%Q).
  { apply Qle_shift_div_r; [exact Hone|]. nra. }
  exists (quotient avg_gain avg_loss),
    (100 - quotient 100 (1 + quotient avg_gain avg_loss))%Q.
  split; [now apply div_pos|]. split; [exact Hone|].
  split; [rewrite (div_pos _ _ Hone); reflexivity|]. lra.
Qed.




(** ** The asset resolver *)

Lemma find_code_first_match (clean code : string) (pre post : list string) :
  (forall c, In c pre -> code_matches clean c = false) ->
  code_matches clean code = true ->
  find_code clean (pre ++ code :: post) = Some code.
Proof.
  intros Hpre Hcode. induction pre as [|c pre IH]; simpl.
  - now rewrite Hcode.
  - rewrite (Hpre c (or_introl eq_refl)). apply IH.
    intros c' Hc'. apply Hpre. now right.
Qed.

Lemma first_n_keeps {A : Type} (k : nat) (pre post : list A) (x : A) :
  (List.length pre < k)%nat ->
  exists post', first_n k (pre ++ x :: post) = (pre ++ x :: post')%list.
Proof.
  intros Hlen. unfold first_n. rewrite firstn_app.
  rewrite firstn_all2 by lia.
  destruct (k - List.length pre)%nat as [|m] eqn:E; [lia|].
  simpl. eauto.
Qed.

Lemma high_payout_names_entry (name : string) (p : Q) :
  (90 <= p)%Q ->
  high_payout_names
    [(name, VDict [("open", VBool true); ("profit", VDict [("1M", VNum p)])])] =
  [(name, p)].
Proof.
  intros Hp. cbn -[Qle_bool].
  assert (H : Qle_bool 90.0 p = true) by (apply Qle_bool_iff; lra).
  now rewrite H.
Qed.

(** C8: "EUR/USD (OTC)" and "EURUSD_otc" both normalise to "EURUSD", the
    two match, and an open "EUR/USD (OTC)" entry paying at least 90% is
    returned with the code "EURUSD_otc" whenever that code is the first
    match among the first hundred of the catalog. *)
Theorem eurusd_resolves :
  display_clean "EUR/USD (OTC)" = "EURUSD" /\
  asset_code_clean "EURUSD_otc" = "EURUSD" /\
  code_matches (display_clean "EUR/USD (OTC)") "EURUSD_otc" = true /\
  forall (w : World) (st : State) (cl : Client) (p : Q)
         (pre post : Dict) (meta : Val),
    bot_client st = Some cl ->
    get_payment w (trace st) cl = Ok (Some (Sample.eurusd_entry p)) ->
    get_all_assets w (trace st ++ [EvGetPayment]) cl =
      Ok (Some (pre ++ ("EURUSD_otc", meta) :: post)%list) ->
    (90 <= p)%Q ->
    (List.length pre < 100)%nat ->
    (forall c, In c (map fst pre) -> code_matches "EURUSD" c = false) ->
    fst (get_high_payout_pairs w st) =
      Ok [{| asset_code := "EURUSD_otc"; payout := p;
             display_name := "EUR/USD (OTC)" |}].
Proof.
  split; [reflexivity|]. split; [reflexivity|]. split; [reflexivity|].
  intros w st cl p pre post meta Hcl Hpay Hassets Hp Hlen Hpre.
  unfold get_high_payout_pairs, bindM, read_client, call, ret.
  rewrite Hcl, Hpay. cbn [emit trace bot_client]. rewrite Hassets.
  assert (Hne : is_empty_dict (Some (pre ++ ("EURUSD_otc", meta) :: post)%list)
                = false).
  { destruct pre; reflexivity. }
  rewrite Hne.
  change (is_empty_dict (Some (Sample.eurusd_entry p))) with false.
  cbn [orb fst dict_items].
  unfold Sample.eurusd_entry. rewrite (high_payout_names_entry _ p Hp).
  cbn [pairs_with_codes].
  change (display_clean "EUR/USD (OTC)") with "EURUSD".
  rewrite map_app. cbn [map fst].
  destruct (first_n_keeps 100 (map fst pre) (map fst post) "EURUSD_otc")
    as [post' Hfirst]; [now rewrite length_map|].
  rewrite Hfirst.
  rewrite (find_code_first_match "EURUSD" "EURUSD_otc" (map fst pre) post');
    [reflexivity | exact Hpre | reflexivity].
Qed.

Lemma eurusd_resolves_witness :
  fst (get_high_payout_pairs (Sample.world 92 Sample.falling_onto_baseline)
         Sample.logged_in) =
    Ok [{| asset_code := "EURUSD_otc"; payout := 92;
           display_name := "EUR/USD (OTC)" |}].
Proof.
  destruct eurusd_resolves as (_ & _ & _ & H).
  apply (H _ Sample.logged_in Sample.client 92%Q [] [] VNone).
  - reflexivity.
  - reflexivity.
  - reflexivity.
  - discriminate.
  - simpl. lia.
  - intros c [].
Defined.

Lemma pairs_with_codes_none (names : list (string * Q)) (all_assets : Dict) :
  (forall name p, In (name, p) names ->
     find_code (display_clean name) (first_n 100 (map fst all_assets)) = None) ->
  pairs_with_codes names all_assets = [].
Proof.
  induction names as [|[name p] names IH]; intros H; cbn [pairs_with_codes];
    [reflexivity|].
  rewrite (H name p (or_introl eq_refl)). apply IH.
  intros n q Hin. apply (H n q). now right.
Qed.

Lemma high_payout_names_none (payment_data : Dict) :
  (forall name data p, In (name, data) payment_data ->
     payout_1m data = Ok (Some p) -> (p < 90)%Q) ->
  high_payout_names payment_data = [].
Proof.
  induction payment_data as [|[name data] rest IH]; intros H;
    cbn [high_payout_names]; [reflexivity|].
  assert (Hrest : high_payout_names rest = []).
  { apply IH. intros n d p Hin. apply (H n d p). now right. }
  destruct (payout_1m data) as [[p|]|e] eqn:E; auto.
  destruct (Qle_bool 90.0 p) eqn:L; auto.
  apply Qle_bool_iff in L.
  pose proof (H name data p (or_introl eq_refl) E). lra.
Qed.

(** ** [get_signal] without eligible instruments *)

(** C1, as the code has it: with a session, when no entry of the payout
    metadata is open with a 1-minute payout of at least 90, or none of
    those entries matches a catalog code, [get_signal] returns normally a
    body whose status is "error" (line 186), having asked the connector
    for the payout metadata and the catalog and for no candles. *)
Theorem no_eligible_instruments
    (w : World) (st : State) (cl : Client) (payment_data all_assets : option Dict) :
  bot_client st = Some cl ->
  get_payment w (trace st) cl = Ok payment_data ->
  get_all_assets w (trace st ++ [EvGetPayment]) cl = Ok all_assets ->
  (forall name data p, In (name, data) (dict_items payment_data) ->
     payout_1m data = Ok (Some p) -> (p < 90)%Q) \/
  (forall name p, In (name, p) (high_payout_names (dict_items payment_data)) ->
     find_code (display_clean name)
               (first_n 100 (map fst (dict_items all_assets))) = None) ->
  get_signal w st =
    (Ok (Message "error" "Could not find any high payout pairs currently open."),
     {| bot_client := Some cl;
        trace := (trace st ++ [EvGetPayment; EvGetAllAssets])%list |}).
Proof.
  intros Hcl Hpay Hassets Hnone.
  assert (Hpairs : pairs_with_codes (high_payout_names (dict_items payment_data))
                                    (dict_items all_assets) = []).
  { destruct Hnone as [Hlow|Hnomatch].
    - now rewrite (high_payout_names_none _ Hlow).
    - now apply pairs_with_codes_none. }
  unfold get_signal, get_high_payout_pairs, bindM, read_client, call, ret.
  cbv beta. rewrite !Hcl. cbv beta iota. rewrite Hpay.
  cbn [emit trace bot_client]. rewrite Hassets, ?Hcl.
  rewrite Hpairs.
  destruct (is_empty_dict payment_data || is_empty_dict all_assets);
    cbn [sort_by_payout fold_right first_n firstn is_nil];
    unfold emit; cbn [trace bot_client];
    rewrite ?Hcl, <- app_assoc; reflexivity.
Qed.

Lemma no_eligible_instruments_witness :
  get_signal (Sample.world 85 Sample.falling_onto_baseline) Sample.logged_in =
    (Ok (Message "error" "Could not find any high payout pairs currently open."),
     {| bot_client := Some Sample.client;
        trace := [EvGetPayment; EvGetAllAssets] |}).
Proof.
  apply (no_eligible_instruments
           (Sample.world 85 Sample.falling_onto_baseline) Sample.logged_in
           Sample.client (Some (Sample.eurusd_entry 85)) (Some Sample.catalog)).
  - reflexivity.
  - reflexivity.
  - reflexivity.
  - left. intros name data p [Hin|[]] Hp.
    inversion Hin; subst. inversion Hp; subst. reflexivity.
Defined.

(** C1 as stated fails: an open entry paying 85% leaves no eligible
    instrument, and the status returned is "error", not "waiting". *)
Lemma no_eligible_instruments_not_waiting :
  exists r st',
    get_signal (Sample.world 85 Sample.falling_onto_baseline) Sample.logged_in
      = (Ok r, st') /\
    status_of r = "error" /\
    status_of r <> "waiting".
Proof.
  eexists. eexists. split; [reflexivity|].
  split; [reflexivity | discriminate].
Qed.

(** ** Running [analyze_pair] *)

Lemma analyze_pair_run (w : World) (code name : string) (st : State) :
  analyze_pair w code name st =
  match analyze_pair_body w code name st with
  | (Ok r, st1) => (Ok r, st1)
  | (Raise e, st1) => (Ok None, emit (EvPrint code e) st1)
  end.
Proof.
  unfold analyze_pair, try_except.
  destruct (analyze_pair_body w code name st) as [[r|e] st1]; reflexivity.
Qed.

Lemma analyze_fetched_some (w : World) (name : string)
    (fetched : option (list Candle)) (sig : Signal) :
  analyze_fetched w name fetched = Ok (Some sig) ->
  exists snap, scoring_engine name snap = Ok (Some sig).
Proof.
  unfold analyze_fetched, bind.
  destruct (prepare_candles w fetched) as [[candles|]|e]; try discriminate.
  unfold analyze_candles, bind.
  destruct (indicators_of candles) as [[snap|]|e]; try discriminate.
  eauto.
Qed.

Lemma analyze_pair_body_some (w : World) (code name : string) (st st' : State)
    (sig : Signal) :
  analyze_pair_body w code name st = (Ok (Some sig), st') ->
  st' = emit (EvGetCandles code 3600 60) st /\
  exists snap, scoring_engine name snap = Ok (Some sig).
Proof.
  unfold analyze_pair_body, client_attr, bindM, read_client, call, lift, ret,
    raise.
  destruct (bot_client st) as [cl|]; [|discriminate].
  destruct (get_candles w (trace st) cl code) as [fetched|e]; [|discriminate].
  intros H. injection H as Hr Hst. subst st'. split; [reflexivity|].
  eapply analyze_fetched_some. exact Hr.
Qed.

Lemma analyze_pair_some (w : World) (code name : string) (st st' : State)
    (sig : Signal) :
  analyze_pair w code name st = (Ok (Some sig), st') ->
  st' = emit (EvGetCandles code 3600 60) st /\
  exists c, In c [60; 80; 98] /\ conf_int_of sig = Ok c.
Proof.
  rewrite analyze_pair_run.
  destruct (analyze_pair_body w code name st) as [[r|e] st1] eqn:E;
    [|discriminate].
  intros H. inversion H; subst.
  apply analyze_pair_body_some in E. destruct E as (Hst & snap & Hsnap).
  split; [exact Hst|].
  destruct (signal_confidence name snap sig Hsnap) as (c & Hin & _ & Hc).
  eauto.
Qed.

Lemma analyze_pair_total (w : World) (code name : string) (st : State) :
  exists r st', analyze_pair w code name st = (Ok r, st').
Proof.
  rewrite analyze_pair_run.
  destruct (analyze_pair_body w code name st) as [[r|e] st1]; eauto.
Qed.

(** ** Running the loop *)

Lemma loop_body_no_signal (w : World) (p : Pair) (best : option Signal)
    (hi : Z) (st st1 : State) :
  analyze_pair w (asset_code p) (display_name p) st = (Ok None, st1) ->
  loop_body w p best hi st = (Ok (Continue best hi), emit EvSleep st1).
Proof.
  intros H. unfold loop_body, bindM. rewrite H. reflexivity.
Qed.

Lemma loop_body_signal (w : World) (p : Pair) (best : option Signal)
    (hi c : Z) (st st1 : State) (sig : Signal) :
  analyze_pair w (asset_code p) (display_name p) st = (Ok (Some sig), st1) ->
  conf_int_of sig = Ok c ->
  loop_body w p best hi st =
    if (if c >? hi then c else hi) >=? 90
    then (Ok (Break (if c >? hi then Some sig else best)), st1)
    else (Ok (Continue (if c >? hi then Some sig else best)
                       (if c >? hi then c else hi)),
          emit EvSleep st1).
Proof.
  intros H Hc. unfold loop_body, bindM, lift. rewrite H, Hc.
  destruct ((if c >? hi then c else hi) >=? 90); reflexivity.
Qed.

Lemma loop_body_total (w : World) (p : Pair) (best : option Signal)
    (hi : Z) (st : State) :
  exists ctl st', loop_body w p best hi st = (Ok ctl, st').
Proof.
  destruct (analyze_pair_total w (asset_code p) (display_name p) st)
    as ([sig|] & st1 & H).
  - destruct (analyze_pair_some _ _ _ _ _ _ H) as (_ & c & _ & Hc).
    rewrite (loop_body_signal w p best hi c st st1 sig H Hc).
    destruct ((if c >? hi then c else hi) >=? 90); eauto.
  - rewrite (loop_body_no_signal w p best hi st st1 H). eauto.
Qed.

Lemma loop_body_continue_below_90 (w : World) (p : Pair)
    (best best' : option Signal) (hi hi' : Z) (st st' : State) :
  hi < 90 ->
  loop_body w p best hi st = (Ok (Continue best' hi'), st') ->
  hi' < 90.
Proof.
  intros Hhi H.
  destruct (analyze_pair_total w (asset_code p) (display_name p) st)
    as ([sig|] & st1 & Ha).
  - destruct (analyze_pair_some _ _ _ _ _ _ Ha) as (_ & c & _ & Hc).
    rewrite (loop_body_signal w p best hi c st st1 sig Ha Hc) in H.
    destruct ((if c >? hi then c else hi) >=? 90) eqn:E; [discriminate|].
    inversion H; subst. rewrite Z.geb_leb in E. apply Z.leb_gt in E. exact E.
  - rewrite (loop_body_no_signal w p best hi st st1 Ha) in H.
    inversion H; subst. exact Hhi.
Qed.

Lemma select_loop_step (w : World) (p : Pair) (rest : list Pair)
    (best best' : option Signal) (hi hi' : Z) (st st' : State) :
  loop_body w p best hi st = (Ok (Continue best' hi'), st') ->
  select_loop w (p :: rest) best hi st = select_loop w rest best' hi' st'.
Proof.
  intros H. cbn [select_loop]. unfold bindM. now rewrite H.
Qed.

Lemma at_iteration_below_90 (w : World) (pairs rest : list Pair)
    (best best' : option Signal) (hi hi' : Z) (st st' : State) :
  at_iteration w pairs best hi st rest best' hi' st' ->
  hi < 90 -> hi' < 90.
Proof.
  induction 1 as [|p rest best1 hi1 st1 best2 hi2 st2 _ IH Hbody]; intros Hhi.
  - exact Hhi.
  - eapply loop_body_continue_below_90; [apply IH, Hhi | exact Hbody].
Qed.

Lemma at_iteration_select_loop (w : World) (pairs rest : list Pair)
    (best best' : option Signal) (hi hi' : Z) (st st' : State) :
  at_iteration w pairs best hi st rest best' hi' st' ->
  select_loop w pairs best hi st = select_loop w rest best' hi' st'.
Proof.
  induction 1 as [|p rest best1 hi1 st1 best2 hi2 st2 _ IH Hbody].
  - reflexivity.
  - rewrite IH. now apply select_loop_step.
Qed.

Lemma get_signal_run (w : World) (st0 st st2 : State) (cl : Client)
    (pairs : list Pair) (sig : Signal) :
  bot_client st0 = Some cl ->
  get_high_payout_pairs w st0 = (Ok pairs, st) ->
  pairs <> [] ->
  select_loop w pairs None 0 st = (Ok (Some sig), st2) ->
  get_signal w st0 = (Ok (Data "success" sig), st2).
Proof.
  intros Hcl Hpairs Hne Hloop.
  unfold get_signal, bindM, read_client. rewrite Hcl. cbv beta iota.
  rewrite Hpairs.
  destruct pairs as [|p rest]; [congruence|].
  cbn [is_nil]. cbv beta iota. rewrite Hloop. reflexivity.
Qed.

Lemma at_iteration_suffix (w : World) (pairs rest : list Pair)
    (best best' : option Signal) (hi hi' : Z) (st st' : State) :
  at_iteration w pairs best hi st rest best' hi' st' ->
  exists done, pairs = (done ++ rest)%list.
Proof.
  induction 1 as [|p rest best1 hi1 st1 best2 hi2 st2 _ IH Hbody].
  - exists []. reflexivity.
  - destruct IH as [done Hdone]. exists (done ++ [p])%list.
    rewrite <- app_assoc. exact Hdone.
Qed.

(** C6: in a run of [get_signal], when the candidate at the top of the
    loop yields a signal of confidence 90 or more, the loop ends there and
    [get_signal] returns that signal: the state it ends in is the one
    right after this candidate's candle fetch, so the candidates after it
    are never fetched. *)
Theorem early_exit
    (w : World) (cl : Client) (pairs rest : list Pair) (p : Pair)
    (best : option Signal) (hi c : Z) (st0 st st1 st2 : State) (sig : Signal) :
  bot_client st0 = Some cl ->
  get_high_payout_pairs w st0 = (Ok pairs, st) ->
  at_iteration w pairs None 0 st (p :: rest) best hi st1 ->
  analyze_pair w (asset_code p) (display_name p) st1 = (Ok (Some sig), st2) ->
  conf_int_of sig = Ok c ->
  90 <= c ->
  select_loop w pairs None 0 st = (Ok (Some sig), st2) /\
  get_signal w st0 = (Ok (Data "success" sig), st2) /\
  trace st2 = (trace st1 ++ [EvGetCandles (asset_code p) 3600 60])%list.
Proof.
  intros Hcl Hpairs Hiter Han Hc Hstrong.
  pose proof (at_iteration_below_90 _ _ _ _ _ _ _ _ _ Hiter) as Hhi.
  assert (Hlt : hi < 90) by (apply Hhi; lia).
  assert (Hloop : select_loop w pairs None 0 st = (Ok (Some sig), st2)).
  { rewrite (at_iteration_select_loop _ _ _ _ _ _ _ _ _ Hiter).
    cbn [select_loop]. unfold bindM.
    rewrite (loop_body_signal w p best hi c st1 st2 sig Han Hc).
    assert (Hgt : (c >? hi) = true) by (apply Z.gtb_lt; lia).
    rewrite Hgt.
    assert (Hge : (c >=? 90) = true) by (apply Z.geb_le; lia).
    rewrite Hge. reflexivity. }
  split; [exact Hloop|]. split.
  - apply (get_signal_run w st0 st st2 cl pairs sig Hcl Hpairs); [|exact Hloop].
    destruct (at_iteration_suffix _ _ _ _ _ _ _ _ _ Hiter) as [done Hdone].
    rewrite Hdone. destruct done; discriminate.
  - destruct (analyze_pair_some _ _ _ _ _ _ Han) as [Hst _]. subst st2.
    reflexivity.
Qed.

Lemma early_exit_witness :
  exists sig st2,
    get_signal Sample.world_two Sample.logged_in = (Ok (Data "success" sig), st2) /\
    pair sig = "EUR/USD (OTC)" /\
    confidence sig = "98%" /\
    trace st2 = [EvGetPayment; EvGetAllAssets; EvGetCandles "EURUSD_otc" 3600 60].
Proof.
  destruct (analyze_pair Sample.world_two "EURUSD_otc" "EUR/USD (OTC)"
              Sample.after_resolver)
    as [[[sig|]|e] st2] eqn:E; try (vm_compute in E; discriminate).
  exists sig, st2.
  assert (Hsig : pair sig = "EUR/USD (OTC)" /\ confidence sig = "98%" /\
                 conf_int_of sig = Ok 98).
  { vm_compute in E. inversion E; subst. repeat split; reflexivity. }
  destruct Hsig as (Hpair & Hconf & Hc).
  destruct (early_exit Sample.world_two Sample.client
              [Sample.eurusd_95; Sample.gbpusd_92] [Sample.gbpusd_92]
              Sample.eurusd_95 None 0 98
              Sample.logged_in Sample.after_resolver Sample.after_resolver
              st2 sig)
    as (_ & Hrun & Htrace).
  - reflexivity.
  - vm_compute. reflexivity.
  - apply at_start.
  - exact E.
  - exact Hc.
  - lia.
  - split; [exact Hrun|]. split; [exact Hpair|]. split; [exact Hconf|].
    exact Htrace.
Defined.

Lemma analyze_pair_body_fetch_raises (w : World) (code name : string)
    (st : State) (cl : Client) (e : Exn) :
  bot_client st = Some cl ->
  get_candles w (trace st) cl code = Raise e ->
  analyze_pair_body w code name st =
    (Raise e, emit (EvGetCandles code 3600 60) st).
Proof.
  intros Hcl Hfetch.
  unfold analyze_pair_body, client_attr, bindM, read_client, call, ret.
  rewrite Hcl. cbv beta iota. now rewrite Hfetch.
Qed.

Lemma select_loop_total (w : World) (pairs : list Pair) :
  forall best hi st, exists r st', select_loop w pairs best hi st = (Ok r, st').
Proof.
  induction pairs as [|p rest IH]; intros best hi st.
  - simpl. unfold ret. eauto.
  - destruct (loop_body_total w p best hi st) as (ctl & st1 & Hbody).
    destruct ctl as [b|b h].
    + cbn [select_loop]. unfold bindM, ret. rewrite Hbody. eauto.
    + rewrite (select_loop_step w p rest best b hi h st st1 Hbody). apply IH.
Qed.

(** C9: [analyze_pair] never raises; when the fetch or the analysis of a
    candidate raises, [analyze_pair] returns no signal and the loop goes
    on to the remaining candidates with [best_signal] and
    [highest_confidence] unchanged; and the loop as a whole never raises. *)
Theorem candidate_errors_are_local (w : World) :
  (forall code name st,
      exists r st', analyze_pair w code name st = (Ok r, st')) /\
  (forall code name st cl e,
      bot_client st = Some cl ->
      get_candles w (trace st) cl code = Raise e ->
      analyze_pair_body w code name st =
        (Raise e, emit (EvGetCandles code 3600 60) st)) /\
  (forall p rest best hi st e st1,
      analyze_pair_body w (asset_code p) (display_name p) st = (Raise e, st1) ->
      analyze_pair w (asset_code p) (display_name p) st =
        (Ok None, emit (EvPrint (asset_code p) e) st1) /\
      select_loop w (p :: rest) best hi st =
        select_loop w rest best hi
          (emit EvSleep (emit (EvPrint (asset_code p) e) st1))) /\
  (forall pairs best hi st,
      exists r st', select_loop w pairs best hi st = (Ok r, st')).
Proof.
  split; [|split; [|split]].
  - intros code name st. apply analyze_pair_total.
  - intros code name st cl e. apply analyze_pair_body_fetch_raises.
  - intros p rest best hi st e st1 Hbody.
    assert (Han : analyze_pair w (asset_code p) (display_name p) st =
                  (Ok None, emit (EvPrint (asset_code p) e) st1)).
    { rewrite analyze_pair_run, Hbody. reflexivity. }
    split; [exact Han|].
    apply select_loop_step. now apply loop_body_no_signal.
  - intros pairs. apply select_loop_total.
Qed.

Lemma candidate_errors_are_local_witness :
  analyze_pair Sample.world_fetch_fails "EURUSD_otc" "EUR/USD (OTC)"
    Sample.logged_in =
    (Ok None,
     {| bot_client := Some Sample.client;
        trace := [EvGetCandles "EURUSD_otc" 3600 60;
                  EvPrint "EURUSD_otc" (ConnectorError "timeout")] |}) /\
  select_loop Sample.world_fetch_fails [Sample.eurusd; Sample.eurusd] None 0
    Sample.logged_in =
  select_loop Sample.world_fetch_fails [Sample.eurusd] None 0
    {| bot_client := Some Sample.client;
       trace := [EvGetCandles "EURUSD_otc" 3600 60;
                 EvPrint "EURUSD_otc" (ConnectorError "timeout");
                 EvSleep] |}.
Proof.
  destruct (candidate_errors_are_local Sample.world_fetch_fails)
    as (_ & Hfetch & Hlocal & _).
  apply (Hlocal Sample.eurusd [Sample.eurusd] None 0 Sample.logged_in
           (ConnectorError "timeout")
           (emit (EvGetCandles "EURUSD_otc" 3600 60) Sample.logged_in)).
  apply (Hfetch "EURUSD_otc" "EUR/USD (OTC)" Sample.logged_in Sample.client).
  - reflexivity.
  - reflexivity.
Defined.

(** ** [login] *)

Lemma login_rejected (w : World) (req : LoginRequest) (st : State)
    (reason : string) :
  bot_client st = None ->
  connect w (trace st) (Quotex (req_email req) (req_password req) "en") =
    Ok (false, reason) ->
  login w req st =
    (Raise (HTTPException 500
              (exn_str w (HTTPException 401 ("Login failed: " ++ reason)))),
     {| bot_client := None;
        trace := (trace st ++
                  [EvConnect (Quotex (req_email req) (req_password req) "en")])%list |}).
Proof.
  intros Hcl Hconn.
  unfold login, try_except, bindM, read_client, write_client, call, ret, raise.
  rewrite Hcl. cbn [trace bot_client]. rewrite Hconn. reflexivity.
Qed.

(** C3, as the code has it: when no session is set and [connect] raises,
    [login] fails with status 500 and the text of the exception, and
    [bot_client] is left holding the client built on line 166: the session
    is set, not cleared. *)
Theorem login_connect_raises (w : World) (req : LoginRequest) (st : State)
    (e : Exn) :
  bot_client st = None ->
  connect w (trace st) (Quotex (req_email req) (req_password req) "en") =
    Raise e ->
  login w req st =
    (Raise (HTTPException 500 (exn_str w e)),
     {| bot_client := Some (Quotex (req_email req) (req_password req) "en");
        trace := (trace st ++
                  [EvConnect (Quotex (req_email req) (req_password req) "en")])%list |}).
Proof.
  intros Hcl Hconn.
  unfold login, try_except, bindM, read_client, write_client, call, ret, raise.
  rewrite Hcl. cbn [trace bot_client]. rewrite Hconn. reflexivity.
Qed.

Lemma login_connect_raises_witness :
  login Sample.world_connect_raises Sample.request Sample.logged_out =
    (Raise (HTTPException 500 "timeout"),
     {| bot_client := Some Sample.client;
        trace := [EvConnect Sample.client] |}).
Proof.
  apply (login_connect_raises Sample.world_connect_raises Sample.request
           Sample.logged_out (ConnectorError "timeout")).
  - reflexivity.
  - reflexivity.
Defined.

(** * Further properties *)

(** ** The resolver's pipeline *)

Lemma get_high_payout_pairs_cases (w : World) (st st' : State)
    (pairs : list Pair) :
  get_high_payout_pairs w st = (Ok pairs, st') ->
  pairs = [] \/
  exists cl payment_data all_assets,
    bot_client st = Some cl /\
    get_payment w (trace st) cl = Ok (Some payment_data) /\
    get_all_assets w (trace st ++ [EvGetPayment]) cl = Ok (Some all_assets) /\
    pairs = first_n 10 (sort_by_payout
              (pairs_with_codes (high_payout_names payment_data) all_assets)).
Proof.
  unfold get_high_payout_pairs, bindM, read_client, call, ret.
  destruct (bot_client st) as [cl|] eqn:Hcl.
  - cbv beta iota.
    destruct (get_payment w (trace st) cl) as [pd|e] eqn:Hpay; [|discriminate].
    cbn [emit trace bot_client].
    destruct (get_all_assets w (trace st ++ [EvGetPayment]) cl) as [aa|e]
      eqn:Has; [|discriminate].
    destruct (is_empty_dict pd || is_empty_dict aa) eqn:Hempty.
    + intros H. injection H as H _. now left.
    + intros H. injection H as H _. right.
      apply orb_false_iff in Hempty. destruct Hempty as [Hpd Haa].
      destruct pd as [pd|]; [|discriminate].
      destruct aa as [aa|]; [|discriminate].
      exists cl, pd, aa. cbn [dict_items] in H. auto.
  - intros H. injection H as H _. now left.
Qed.

Lemma insert_by_payout_descending (x : Pair) (l : list Pair) :
  descending l -> descending (insert_by_payout x l).
Proof.
  induction l as [|y ys IH]; intros Hl.
  - simpl. auto.
  - cbn [insert_by_payout].
    destruct (Qltb (payout x) (payout y)) eqn:E.
    + destruct Hl as [Hhead Htail]. specialize (IH Htail).
      cbn [descending]. split; [|exact IH].
      destruct ys as [|z zs].
      * cbn [insert_by_payout]. apply Qltb_true in E. lra.
      * cbn [insert_by_payout] in *.
        destruct (Qltb (payout x) (payout z)).
        -- exact Hhead.
        -- apply Qltb_true in E. lra.
    + apply Qltb_false in E. cbn [descending]. split; [exact E|exact Hl].
Qed.

Lemma sort_by_payout_descending (l : list Pair) : descending (sort_by_payout l).
Proof.
  induction l as [|x l IH]; [exact I|].
  cbn [sort_by_payout fold_right].
  now apply insert_by_payout_descending.
Qed.

Lemma first_n_descending (k : nat) (l : list Pair) :
  descending l -> descending (first_n k l).
Proof.
  unfold first_n. revert l. induction k as [|k IH]; intros l Hl; [exact I|].
  destruct l as [|a rest]; [exact I|].
  destruct Hl as [Hhead Htail]. cbn [firstn descending].
  split; [|now apply IH].
  destruct rest as [|b rest']; destruct k; simpl; auto.
Qed.

Lemma insert_by_payout_perm (x : Pair) (l : list Pair) :
  Permutation (insert_by_payout x l) (x :: l).
Proof.
  induction l as [|y ys IH]; [reflexivity|].
  cbn [insert_by_payout]. destruct (Qltb (payout x) (payout y)).
  - rewrite IH. apply perm_swap.
  - reflexivity.
Qed.

Lemma sort_by_payout_perm (l : list Pair) : Permutation (sort_by_payout l) l.
Proof.
  induction l as [|x l IH]; [reflexivity|].
  cbn [sort_by_payout fold_right].
  rewrite insert_by_payout_perm. now constructor.
Qed.

Lemma insert_by_payout_with_payout (q : Q) (x : Pair) (l : list Pair) :
  with_payout q (insert_by_payout x l) = with_payout q (x :: l).
Proof.
  unfold with_payout. induction l as [|y ys IH]; [reflexivity|].
  cbn [insert_by_payout]. destruct (Qltb (payout x) (payout y)) eqn:E.
  - cbn [filter] in *. rewrite IH.
    destruct (Qeq_bool (payout x) q) eqn:Ex; [|reflexivity].
    destruct (Qeq_bool (payout y) q) eqn:Ey; [|reflexivity].
    apply Qeq_bool_eq in Ex. apply Qeq_bool_eq in Ey.
    apply Qltb_true in E. lra.
  - reflexivity.
Qed.

Lemma sort_by_payout_with_payout (q : Q) (l : list Pair) :
  with_payout q (sort_by_payout l) = with_payout q l.
Proof.
  induction l as [|x l IH]; [reflexivity|].
  change (sort_by_payout (x :: l)) with (insert_by_payout x (sort_by_payout l)).
  rewrite insert_by_payout_with_payout.
  unfold with_payout in *. cbn [filter]. now rewrite IH.
Qed.

Lemma high_payout_names_in (payment_data : Dict) (name : string) (q : Q) :
  In (name, q) (high_payout_names payment_data) ->
  exists d,
    In (name, VDict d) payment_data /\
    truthy (dict_get d "open" (VBool false)) = true /\
    payout_1m (VDict d) = Ok (Some q) /\
    (90 <= q)%Q.
Proof.
  induction payment_data as [|[n data] rest IH]; [intros []|].
  cbn [high_payout_names].
  assert (Hrest : In (name, q) (high_payout_names rest) ->
          exists d, In (name, VDict d) ((n, data) :: rest) /\
                    truthy (dict_get d "open" (VBool false)) = true /\
                    payout_1m (VDict d) = Ok (Some q) /\ (90 <= q)%Q).
  { intros H. destruct (IH H) as (d & Hin & Hd). exists d.
    split; [now right | exact Hd]. }
  destruct (payout_1m data) as [[p|]|e] eqn:E; [|exact Hrest|exact Hrest].
  destruct (Qle_bool 90.0 p) eqn:L; [|exact Hrest].
  intros [Heq|H]; [|exact (Hrest H)].
  injection Heq as -> ->.
  destruct data as [| | |d]; try discriminate.
  exists d. split; [now left|].
  split.
  - cbn [payout_1m] in E.
    destruct (truthy (dict_get d "open" (VBool false))); [reflexivity|].
    discriminate.
  - split; [exact E|]. apply Qle_bool_iff in L. lra.
Qed.

Lemma find_code_some (clean code : string) (codes : list string) :
  find_code clean codes = Some code ->
  In code codes /\ code_matches clean code = true.
Proof.
  induction codes as [|c rest IH]; [discriminate|].
  cbn [find_code]. destruct (code_matches clean c) eqn:E.
  - intros H. injection H as ->. split; [now left|exact E].
  - intros H. destruct (IH H). split; [now right|assumption].
Qed.

Lemma pairs_with_codes_in (names : list (string * Q)) (all_assets : Dict)
    (p : Pair) :
  In p (pairs_with_codes names all_assets) ->
  In (display_name p, payout p) names /\
  find_code (display_clean (display_name p))
            (first_n 100 (map fst all_assets)) = Some (asset_code p).
Proof.
  induction names as [|[name q] rest IH]; [intros []|].
  cbn [pairs_with_codes].
  destruct (find_code (display_clean name) (first_n 100 (map fst all_assets)))
    as [code|] eqn:E.
  - intros [<-|H].
    + cbn [display_name payout asset_code]. split; [now left|exact E].
    + destruct (IH H). split; [now right|assumption].
  - intros H. destruct (IH H). split; [now right|assumption].
Qed.

Lemma descending_app_le (l1 l2 : list Pair) :
  descending (l1 ++ l2) ->
  forall x y, In x l1 -> In y l2 -> (payout y <= payout x)%Q.
Proof.
  induction l1 as [|a l1 IH]; [intros _ x y []|].
  intros [Hhead Htail] x y Hx Hy.
  assert (Hbelow : forall z, In z (l1 ++ l2) -> (payout z <= payout a)%Q).
  { clear -Hhead Htail. revert a Hhead Htail.
    induction (l1 ++ l2)%list as [|b l IHl]; [intros a _ _ z []|].
    intros a Hhead [Hb Htail] z [<-|Hz]; [exact Hhead|].
    apply Qle_trans with (payout b); [|exact Hhead].
    now apply IHl. }
  destruct Hx as [<-|Hx].
  - apply Hbelow. apply in_or_app. now right.
  - now apply IH.
Qed.

Lemma first_n_In {A : Type} (k : nat) (l : list A) (x : A) :
  In x (first_n k l) -> In x l.
Proof.
  intros H. rewrite <- (firstn_skipn k l). apply in_or_app. now left.
Qed.

(** X1: The list returned holds at most ten pairs, highest payout first. *)
Theorem ranked_pairs_bounded_and_sorted (w : World) (st st' : State)
    (pairs : list Pair) :
  get_high_payout_pairs w st = (Ok pairs, st') ->
  (List.length pairs <= 10)%nat /\ descending pairs.
Proof.
  intros H. apply get_high_payout_pairs_cases in H.
  destruct H as [->|(cl & pd & aa & _ & _ & _ & ->)].
  - split; [simpl; lia | exact I].
  - split.
    + unfold first_n. apply firstn_le_length.
    + apply first_n_descending, sort_by_payout_descending.
Qed.

Lemma ranked_pairs_bounded_and_sorted_witness :
  (List.length [Sample.eurusd_95; Sample.gbpusd_92] <= 10)%nat /\
  descending [Sample.eurusd_95; Sample.gbpusd_92].
Proof.
  apply (ranked_pairs_bounded_and_sorted Sample.world_two Sample.logged_in
           Sample.after_resolver).
  vm_compute. reflexivity.
Defined.

(** X2: Every pair returned comes from an entry of the payout metadata that is
    a dict, open, with a 1-minute payout of at least 90, and carries a
    code from the first hundred catalog keys that matches its name. *)
Theorem ranked_pairs_are_eligible (w : World) (st st' : State) (cl : Client)
    (payment_data all_assets : Dict) (pairs : list Pair) (p : Pair) :
  bot_client st = Some cl ->
  get_payment w (trace st) cl = Ok (Some payment_data) ->
  get_all_assets w (trace st ++ [EvGetPayment]) cl = Ok (Some all_assets) ->
  get_high_payout_pairs w st = (Ok pairs, st') ->
  In p pairs ->
  (exists d, In (display_name p, VDict d) payment_data /\
             truthy (dict_get d "open" (VBool false)) = true /\
             payout_1m (VDict d) = Ok (Some (payout p))) /\
  (90 <= payout p)%Q /\
  In (asset_code p) (first_n 100 (map fst all_assets)) /\
  code_matches (display_clean (display_name p)) (asset_code p) = true.
Proof.
  intros Hcl Hpay Has Hrun Hin.
  apply get_high_payout_pairs_cases in Hrun.
  destruct Hrun as [->|(cl' & pd & aa & Hcl' & Hpay' & Has' & ->)];
    [destruct Hin|].
  rewrite Hcl in Hcl'. injection Hcl' as <-.
  rewrite Hpay in Hpay'. injection Hpay' as <-.
  rewrite Has in Has'. injection Has' as <-.
  apply first_n_In in Hin.
  apply (Permutation_in _ (sort_by_payout_perm _)) in Hin.
  apply pairs_with_codes_in in Hin. destruct Hin as [Hname Hcode].
  apply high_payout_names_in in Hname.
  destruct Hname as (d & Hd & Hopen & Hp & Hq).
  apply find_code_some in Hcode. destruct Hcode as [Hc Hm].
  split; [exists d; auto|]. auto.
Qed.

Lemma ranked_pairs_are_eligible_witness :
  (exists d, In ("GBP/USD (OTC)", VDict d) Sample.two_entries /\
             truthy (dict_get d "open" (VBool false)) = true /\
             payout_1m (VDict d) = Ok (Some 92%Q)) /\
  (90 <= 92)%Q /\
  In "GBPUSD_otc" (first_n 100 (map fst Sample.two_codes)) /\
  code_matches (display_clean "GBP/USD (OTC)") "GBPUSD_otc" = true.
Proof.
  apply (ranked_pairs_are_eligible Sample.world_two Sample.logged_in
           Sample.after_resolver Sample.client Sample.two_entries
           Sample.two_codes [Sample.eurusd_95; Sample.gbpusd_92]
           Sample.gbpusd_92).
  - reflexivity.
  - reflexivity.
  - reflexivity.
  - vm_compute. reflexivity.
  - right. left. reflexivity.
Defined.

(** X3: The truncation to ten drops nothing when at most ten candidates
    resolve, and otherwise drops only candidates paying no more than every
    candidate kept; no candidate is invented or duplicated. *)
Theorem truncation_keeps_the_best (w : World) (st st' : State) (cl : Client)
    (payment_data all_assets : Dict) (pairs : list Pair) :
  bot_client st = Some cl ->
  get_payment w (trace st) cl = Ok (Some payment_data) ->
  get_all_assets w (trace st ++ [EvGetPayment]) cl = Ok (Some all_assets) ->
  get_high_payout_pairs w st = (Ok pairs, st') ->
  exists dropped,
    Permutation (pairs ++ dropped)
      (pairs_with_codes (high_payout_names payment_data) all_assets) /\
    (forall kept lost, In kept pairs -> In lost dropped ->
       (payout lost <= payout kept)%Q) /\
    ((List.length (pairs_with_codes (high_payout_names payment_data) all_assets)
      <= 10)%nat -> dropped = []).
Proof.
  intros Hcl Hpay Has Hrun.
  set (resolved := pairs_with_codes (high_payout_names payment_data) all_assets).
  assert (Hpairs : pairs = first_n 10 (sort_by_payout resolved)).
  { unfold get_high_payout_pairs, bindM, read_client, call, ret in Hrun.
    rewrite Hcl in Hrun. cbv beta iota in Hrun. rewrite Hpay in Hrun.
    cbn [emit trace bot_client] in Hrun. rewrite Has in Hrun.
    cbn [dict_items] in Hrun. fold resolved in Hrun.
    destruct (is_empty_dict (Some payment_data)
              || is_empty_dict (Some all_assets)) eqn:E.
    - injection Hrun as <- _.
      assert (Hnil : resolved = []).
      { unfold resolved. apply orb_true_iff in E. destruct E as [E|E].
        - destruct payment_data; [reflexivity|discriminate].
        - destruct all_assets; [|discriminate].
          apply pairs_with_codes_none. intros name p _.
          reflexivity. }
      now rewrite Hnil.
    - now injection Hrun as <- _. }
  exists (skipn 10 (sort_by_payout resolved)).
  subst pairs. unfold first_n. split; [|split].
  - rewrite firstn_skipn. apply sort_by_payout_perm.
  - intros kept lost Hk Hl.
    apply (descending_app_le (firstn 10 (sort_by_payout resolved))
             (skipn 10 (sort_by_payout resolved))); auto.
    rewrite firstn_skipn. apply sort_by_payout_descending.
  - intros Hlen. apply skipn_all2.
    rewrite (Permutation_length (sort_by_payout_perm resolved)). exact Hlen.
Qed.

Lemma truncation_keeps_the_best_witness :
  exists dropped,
    Permutation ([Sample.eurusd_95; Sample.gbpusd_92] ++ dropped)
      (pairs_with_codes (high_payout_names Sample.two_entries) Sample.two_codes) /\
    (forall kept lost, In kept [Sample.eurusd_95; Sample.gbpusd_92] ->
       In lost dropped -> (payout lost <= payout kept)%Q) /\
    ((List.length (pairs_with_codes (high_payout_names Sample.two_entries)
                     Sample.two_codes) <= 10)%nat -> dropped = []).
Proof.
  apply (truncation_keeps_the_best Sample.world_two Sample.logged_in
           Sample.after_resolver Sample.client Sample.two_entries
           Sample.two_codes [Sample.eurusd_95; Sample.gbpusd_92]).
  - reflexivity.
  - reflexivity.
  - reflexivity.
  - vm_compute. reflexivity.
Defined.

(** X4: The sort of line 65 is stable: pairs with the same payout stay in the
    order in which the payout metadata listed them. *)
Theorem ranking_is_stable (q : Q) (l : list Pair) :
  with_payout q (sort_by_payout l) = with_payout q l /\
  Permutation (sort_by_payout l) l /\
  descending (sort_by_payout l).
Proof.
  split; [apply sort_by_payout_with_payout|].
  split; [apply sort_by_payout_perm | apply sort_by_payout_descending].
Qed.

(** ** Edges of the resolver *)

Lemma first_n_app_full {A : Type} (k : nat) (l extra : list A) :
  (k <= List.length l)%nat -> first_n k (l ++ extra) = first_n k l.
Proof.
  intros H. unfold first_n. rewrite firstn_app.
  replace (k - List.length l)%nat with 0%nat by lia.
  cbn [firstn]. apply app_nil_r.
Qed.

(** X5: Only the first hundred catalog keys are scanned: what follows them
    never changes the result, so a code found only further down is lost. *)
Theorem catalog_scan_is_bounded (names : list (string * Q))
    (all_assets extra : Dict) :
  (100 <= List.length all_assets)%nat ->
  pairs_with_codes names (all_assets ++ extra)%list =
  pairs_with_codes names all_assets.
Proof.
  intros Hlen.
  assert (Hkeys : first_n 100 (map fst (all_assets ++ extra)%list) =
                  first_n 100 (map fst all_assets)).
  { rewrite map_app. apply first_n_app_full. now rewrite length_map. }
  induction names as [|[name p] rest IH]; [reflexivity|].
  cbn [pairs_with_codes]. rewrite Hkeys, IH. reflexivity.
Qed.

Lemma catalog_scan_is_bounded_witness :
  pairs_with_codes [("EUR/USD (OTC)", 92%Q)]
    (Cases.long_catalog ++ [("EURUSD_otc", VNone)])%list = [].
Proof.
  rewrite (catalog_scan_is_bounded [("EUR/USD (OTC)", 92%Q)]
             Cases.long_catalog [("EURUSD_otc", VNone)]).
  - vm_compute. reflexivity.
  - unfold Cases.long_catalog. rewrite repeat_length. lia.
Defined.

Lemma contains_empty (s : string) : contains EmptyString s = true.
Proof. destruct s; reflexivity. Qed.

(** X6: The containment test of line 56 holds as soon as either side is the
    empty string: a display name that normalises to nothing (such as
    "(OTC)" or "/") is given the first catalog code, and a code that
    normalises to nothing (such as "_otc") is given to every name that
    reaches it. *)
Theorem empty_normal_form_matches_anything (name code : string) :
  display_clean name = EmptyString \/ asset_code_clean code = EmptyString ->
  code_matches (display_clean name) code = true /\
  forall rest p all_assets meta,
    (pairs_with_codes [(name, p)] ((code, meta) :: all_assets) ++ rest)%list =
    {| asset_code := code; payout := p; display_name := name |} :: rest.
Proof.
  intros H.
  assert (Hm : code_matches (display_clean name) code = true).
  { unfold code_matches. destruct H as [-> | ->].
    - now rewrite contains_empty.
    - rewrite contains_empty. apply orb_true_r. }
  split; [exact Hm|].
  intros rest p all_assets meta.
  cbn [pairs_with_codes map fst first_n firstn find_code]. now rewrite Hm.
Qed.

Lemma empty_normal_form_matches_anything_witness :
  code_matches (display_clean "(OTC)") "GBPUSD_otc" = true /\
  code_matches (display_clean "EUR/USD (OTC)") "_otc" = true.
Proof.
  split.
  - apply (empty_normal_form_matches_anything "(OTC)" "GBPUSD_otc").
    left. reflexivity.
  - apply (empty_normal_form_matches_anything "EUR/USD (OTC)" "_otc").
    right. reflexivity.
Defined.

Lemma high_payout_names_app (l1 l2 : Dict) :
  high_payout_names (l1 ++ l2)%list =
  (high_payout_names l1 ++ high_payout_names l2)%list.
Proof.
  induction l1 as [|[name data] rest IH]; [reflexivity|].
  cbn [app high_payout_names]. rewrite IH.
  destruct (payout_1m data) as [[p|]|e]; try reflexivity.
  destruct (Qle_bool 90.0 p); reflexivity.
Qed.

(** X7: An entry that is not a dict, is closed, pays under 90 or makes
    [float] raise is skipped, and the entries around it yield what they
    would yield without it. *)
Theorem unusable_entries_are_skipped (before after : Dict) (name : string)
    (data : Val) :
  (forall q, payout_1m data = Ok (Some q) -> (q < 90)%Q) ->
  high_payout_names (before ++ (name, data) :: after)%list =
  high_payout_names (before ++ after)%list.
Proof.
  intros Hbad.
  rewrite !high_payout_names_app. f_equal.
  cbn [high_payout_names].
  destruct (payout_1m data) as [[p|]|e] eqn:E; try reflexivity.
  destruct (Qle_bool 90.0 p) eqn:L; [|reflexivity].
  apply Qle_bool_iff in L. pose proof (Hbad p eq_refl). lra.
Qed.

Lemma unusable_entries_are_skipped_witness :
  high_payout_names
    (Sample.eurusd_entry 95 ++ ("BTC/USD", Cases.broken_entry)
       :: [("GBP/USD (OTC)", Cases.open_entry 92)])%list =
  [("EUR/USD (OTC)", 95%Q); ("GBP/USD (OTC)", 92%Q)].
Proof.
  rewrite (unusable_entries_are_skipped (Sample.eurusd_entry 95)
             [("GBP/USD (OTC)", Cases.open_entry 92)]
             "BTC/USD" Cases.broken_entry).
  - reflexivity.
  - intros q H. discriminate H.
Defined.

(** ** The decision table of the scoring engine *)

Lemma quotient_near (x y : Q) :
  Qltb (quotient x y) 0.002 = Qltb (x / y) 0.002.
Proof.
  unfold quotient.
  destruct (Qle_bool (Qabs (x / y)) half_least_double) eqn:E; [|reflexivity].
  apply Qle_bool_iff in E.
  assert (Hh : (half_least_double < 0.002)%Q) by reflexivity.
  pose proof (Qle_Qabs (x / y)) as Hle.
  assert (Hlt : (x / y < 0.002)%Q).
  { eapply Qle_lt_trans; [exact Hle|]. eapply Qle_lt_trans; [exact E|exact Hh]. }
  apply Qltb_true in Hlt. now rewrite Hlt.
Qed.

(** X8: With a non-zero slow average the scoring engine decides by three
    tests only: the trend (fast above slow), the momentum (RSI under 40,
    or over 60) and the closeness to the slow average.  Momentum that
    agrees with the trend gives a signal in the direction of the trend at
    80, or 98 when the price is close; neutral momentum gives a signal at
    60 only when the price is close; momentum against the trend gives no
    signal.  The direction is always that of the trend. *)
Theorem scoring_decision_table (name : string) (s : Snapshot) :
  Qeq_bool (snap_ma20 s) 0 = false ->
  let up := Qltb (snap_ma20 s) (snap_ma5 s) in
  let oversold := Qltb (snap_rsi s) 40 in
  let overbought := negb oversold && Qltb 60 (snap_rsi s) in
  let near :=
    Qltb (Qabs (snap_current_price s - snap_ma20 s) / snap_ma20 s) 0.002 in
  let agrees := if up then oversold else overbought in
  let opposes := if up then overbought else oversold in
  match scoring_engine name s with
  | Ok (Some sig) =>
      opposes = false /\ (agrees = true \/ near = true) /\
      direction sig = (if up then "CALL 🟢" else "PUT 🔴") /\
      confidence sig =
        (if agrees then (if near then "98%" else "80%") else "60%") /\
      pair sig = name
  | Ok None =>
      opposes = true \/ (agrees = false /\ near = false)
  | Raise _ => False
  end.
Proof.
  intros Hnz. cbv zeta.
  unfold scoring_engine, score_of, running_score, trend_check, rsi_check,
    distance_check, div, bind.
  rewrite Hnz. cbv beta iota. rewrite ?quotient_near.
  destruct (Qltb (snap_ma20 s) (snap_ma5 s));
    destruct (Qltb (snap_rsi s) 40);
    destruct (Qltb 60 (snap_rsi s));
    destruct (Qltb (Qabs (snap_current_price s - snap_ma20 s) / snap_ma20 s)
                   0.002);
    cbn [fst snd negb andb]; unfold compile_signal;
    cbn [Z.add Z.sub Z.opp Z.geb Z.leb Z.gtb Z.compare Pos.compare
         Pos.compare_cont Z.pos_sub Pos.add Pos.succ Z.min Z.abs
         Pos.pred_double Z.double Z.succ_double Z.pred_double CompOpp
         direction confidence pair];
    try (repeat split; auto; fail);
    auto.
Qed.

Lemma scoring_decision_table_witness :
  match scoring_engine "EUR/USD (OTC)" Sample.medium_up with
  | Ok (Some sig) =>
      direction sig = "CALL 🟢" /\ confidence sig = "80%" /\
      pair sig = "EUR/USD (OTC)"
  | _ => False
  end.
Proof.
  pose proof (scoring_decision_table "EUR/USD (OTC)" Sample.medium_up eq_refl)
    as H.
  cbv zeta in H.
  destruct (scoring_engine "EUR/USD (OTC)" Sample.medium_up) as [[sig|]|e].
  - destruct H as (_ & _ & Hd & Hc & Hp). auto.
  - destruct H as [H|[H _]]; discriminate H.
  - exact H.
Defined.

(** ** Edges of the analysis *)

Lemma fold_left_Qmaxb (l : list Q) (a : Q) :
  (a <= fold_left Qmaxb l a)%Q /\
  Forall (fun x => x <= fold_left Qmaxb l a)%Q l /\
  (fold_left Qmaxb l a = a \/ In (fold_left Qmaxb l a) l).
Proof.
  revert a. induction l as [|x l IH]; intros a.
  - simpl. split; [lra|]. split; [constructor|now left].
  - cbn [fold_left].
    destruct (IH (Qmaxb a x)) as (Hge & Hall & Hin).
    assert (Hmax : (a <= Qmaxb a x /\ x <= Qmaxb a x)%Q /\
                   (Qmaxb a x = a \/ Qmaxb a x = x)).
    { unfold Qmaxb. destruct (Qltb a x) eqn:E.
      - apply Qltb_true in E. split; [split; lra|now right].
      - apply Qltb_false in E. split; [split; lra|now left]. }
    destruct Hmax as [[Ha Hx] Hsel].
    split; [lra|]. split.
    + constructor; [lra|exact Hall].
    + destruct Hin as [Hin|Hin].
      * destruct Hsel as [Hs|Hs]; rewrite Hin, Hs; [now left|right; now left].
      * right. now right.
Qed.

Lemma fold_left_Qminb (l : list Q) (a : Q) :
  (fold_left Qminb l a <= a)%Q /\
  Forall (fun x => fold_left Qminb l a <= x)%Q l /\
  (fold_left Qminb l a = a \/ In (fold_left Qminb l a) l).
Proof.
  revert a. induction l as [|x l IH]; intros a.
  - simpl. split; [lra|]. split; [constructor|now left].
  - cbn [fold_left].
    destruct (IH (Qminb a x)) as (Hle & Hall & Hin).
    assert (Hmin : (Qminb a x <= a /\ Qminb a x <= x)%Q /\
                   (Qminb a x = a \/ Qminb a x = x)).
    { unfold Qminb. destruct (Qltb x a) eqn:E.
      - apply Qltb_true in E. split; [split; lra|now right].
      - apply Qltb_false in E. split; [split; lra|now left]. }
    destruct Hmin as [[Ha Hx] Hsel].
    split; [lra|]. split.
    + constructor; [lra|exact Hall].
    + destruct Hin as [Hin|Hin].
      * destruct Hsel as [Hs|Hs]; rewrite Hin, Hs; [now left|right; now left].
      * right. now right.
Qed.

Lemma max_spec (l : list Q) (m : Q) :
  max l = Ok m -> In m l /\ Forall (fun x => x <= m)%Q l.
Proof.
  destruct l as [|a l]; [discriminate|].
  cbn [max]. intros H. injection H as <-.
  destruct (fold_left_Qmaxb l a) as (Hge & Hall & Hin).
  split.
  - destruct Hin as [->|Hin]; [now left|now right].
  - constructor; assumption.
Qed.

Lemma min_spec (l : list Q) (m : Q) :
  min l = Ok m -> In m l /\ Forall (fun x => m <= x)%Q l.
Proof.
  destruct l as [|a l]; [discriminate|].
  cbn [min]. intros H. injection H as <-.
  destruct (fold_left_Qminb l a) as (Hle & Hall & Hin).
  split.
  - destruct Hin as [->|Hin]; [now left|now right].
  - constructor; assumption.
Qed.

Lemma max_nonempty (l : list Q) : l <> [] -> exists m, max l = Ok m.
Proof. destruct l; [congruence|]. intros _. cbn [max]. eauto. Qed.

Lemma min_nonempty (l : list Q) : l <> [] -> exists m, min l = Ok m.
Proof. destruct l; [congruence|]. intros _. cbn [min]. eauto. Qed.

Lemma last_n_nonempty {A : Type} (k : nat) (l : list A) :
  (0 < k)%nat -> l <> [] -> last_n k l <> [].
Proof.
  intros Hk Hl H. apply (f_equal (@List.length A)) in H.
  unfold last_n in H. rewrite length_skipn in H.
  destruct l; [congruence|]. cbn [List.length] in H. lia.
Qed.

Lemma mapM_length {A B : Type} (f : A -> Result B) (l : list A) (l' : list B) :
  mapM f l = Ok l' -> List.length l' = List.length l.
Proof.
  revert l'. induction l as [|x xs IH]; intros l'.
  - simpl. intros H. injection H as <-. reflexivity.
  - cbn [mapM]. unfold bind.
    destruct (f x) as [y|e]; [|discriminate].
    destruct (mapM f xs) as [ys|e]; [|discriminate].
    intros H. injection H as <-. simpl. f_equal. now apply IH.
Qed.

Lemma rsi_of_outcome (closes : list Q) :
  (30 <= List.length closes)%nat ->
  (exists rsi, rsi_of closes = Ok rsi) \/
  rsi_of closes = Raise ZeroDivisionError.
Proof.
  intros Hlen.
  destruct (rsi_split_ok closes (range (-15) (-1))) with (gains := @nil Q)
    (losses := @nil Q) as (g & l & Hsplit & Hg & Hl); auto.
  { intros i Hi. apply range_window in Hi. lia. }
  pose proof (avg_or_epsilon_nonneg g Hg) as Hgain.
  unfold rsi_of. rewrite Hsplit. cbn [bind fst snd].
  assert (Hcases : (0 < avg_or_epsilon l)%Q \/ avg_or_epsilon l = 0%Q).
  { destruct l as [|x l']; [left; reflexivity|].
    assert (Hne : x :: l' <> []) by discriminate.
    destruct (avg_or_epsilon_side (x :: l') Hl Hne) as [Hexact Hzero].
    destruct (Qlt_le_dec half_least_double (sum (x :: l') / 14)) as [Hbig|Hsmall].
    - left. rewrite (Hexact Hbig). pose proof half_least_double_pos. lra.
    - right. now apply Hzero. }
  destruct Hcases as [Hloss|Hzero].
  - left.
    destruct (rsi_from_averages _ _ Hgain Hloss)
      as (rs & rsi & Hrs & _ & Hrsi & _).
    exists rsi. rewrite Hrs. cbn [bind]. exact Hrsi.
  - right. rewrite Hzero. reflexivity.
Qed.

(** X9: Resistance is the greatest of the last twenty highs, support the least
    of the last twenty lows, and the current price is the last close. *)
Theorem support_and_resistance_bracket (closes highs lows : list Q)
    (s : Snapshot) :
  snapshot_of closes highs lows = Ok (Some s) ->
  In (snap_resistance s) (last_n 20 highs) /\
  Forall (fun h => h <= snap_resistance s)%Q (last_n 20 highs) /\
  In (snap_support s) (last_n 20 lows) /\
  Forall (fun l => snap_support s <= l)%Q (last_n 20 lows) /\
  index closes (-1) = Ok (snap_current_price s).
Proof.
  unfold snapshot_of, bind.
  destruct (index closes (-1)) as [price|e]; [|discriminate].
  destruct (max (last_n 20 highs)) as [res|e] eqn:Hres; [|discriminate].
  destruct (min (last_n 20 lows)) as [sup|e] eqn:Hsup; [|discriminate].
  destruct (rsi_of closes) as [rsi|e]; [|discriminate].
  destruct (max (last_n 10 closes)) as [hi|e]; [|discriminate].
  destruct (min (last_n 10 closes)) as [lo|e]; [|discriminate].
  destruct (Qltb (hi - lo) 0.00005); [discriminate|].
  intros H. injection H as <-. cbn [snap_resistance snap_support
                                     snap_current_price].
  apply max_spec in Hres. apply min_spec in Hsup.
  destruct Hres, Hsup. auto.
Qed.

Lemma support_and_resistance_bracket_witness :
  exists s,
    indicators_of Sample.falling_onto_baseline = Ok (Some s) /\
    Forall (fun h => h <= snap_resistance s)%Q
      (last_n 20 (repeat 0.979%Q 5
                  ++ map (fun k => 1.014 - inject_Z (Z.of_nat k) / 1000)%Q
                       (seq 0 15))).
Proof.
  destruct (indicators_of Sample.falling_onto_baseline) as [[s|]|e] eqn:E;
    try (vm_compute in E; discriminate).
  exists s. split; [reflexivity|].
  set (closes := (repeat 1%Q 10 ++ repeat 0.979%Q 5
                  ++ map (fun k => 1.014 - inject_Z (Z.of_nat k) / 1000)%Q
                       (seq 0 15))%list).
  assert (Hsnap : snapshot_of closes closes closes = Ok (Some s)).
  { rewrite <- E. vm_compute. reflexivity. }
  destruct (support_and_resistance_bracket closes closes closes s Hsnap)
    as (_ & Hres & _).
  exact Hres.
Defined.

Lemma index_last {A : Type} (l : list A) :
  l <> [] -> exists x, index l (-1) = Ok x.
Proof.
  intros Hl. apply index_negative. destruct l; [congruence|].
  cbn [List.length]. lia.
Qed.

(** X10: When the last ten closes are all equal, thirty or more
    well-formed candles give no signal: the analysis ends either at the
    RSI division of line 102, when it divides by zero, or at the
    volatility filter of line 106, which returns [None] whatever the
    averages and the RSI are. *)
Theorem flat_market_gives_no_signal (name : string) (candles : list Candle)
    (closes highs lows : list Q) (q : Q) :
  closes_of candles = Ok closes ->
  highs_of candles closes = Ok highs ->
  lows_of candles closes = Ok lows ->
  (30 <= List.length candles)%nat ->
  (forall x, In x (last_n 10 closes) -> x = q) ->
  (analyze_candles name candles = Ok None \/
   analyze_candles name candles = Raise ZeroDivisionError) /\
  caught (analyze_candles name candles) = None.
Proof.
  intros Hc Hh Hl Hlen Hflat.
  assert (Lc : List.length closes = List.length candles)
    by (apply (mapM_length _ _ _ Hc)).
  assert (Lh : List.length highs = List.length candles).
  { rewrite (mapM_length _ _ _ Hh), length_combine. lia. }
  assert (Ll : List.length lows = List.length candles).
  { rewrite (mapM_length _ _ _ Hl), length_combine. lia. }
  assert (Nc : closes <> []) by (intros ->; simpl in Lc; lia).
  assert (Nh : highs <> []) by (intros ->; simpl in Lh; lia).
  assert (Nl : lows <> []) by (intros ->; simpl in Ll; lia).
  assert (Hrun : analyze_candles name candles = Ok None \/
                 analyze_candles name candles = Raise ZeroDivisionError).
  { unfold analyze_candles, indicators_of. rewrite Hc. cbn [bind].
    rewrite Hh. cbn [bind]. rewrite Hl. cbn [bind].
    unfold snapshot_of.
    destruct (index_last closes Nc) as [price ->]. cbn [bind].
    destruct (max_nonempty (last_n 20 highs)) as [res ->];
      [apply last_n_nonempty; [lia|exact Nh]|].
    cbn [bind].
    destruct (min_nonempty (last_n 20 lows)) as [sup ->];
      [apply last_n_nonempty; [lia|exact Nl]|].
    cbn [bind].
    destruct (rsi_of_outcome closes) as [[rsi ->]| ->]; [lia| |right; reflexivity].
    cbn [bind].
    destruct (max_nonempty (last_n 10 closes)) as [hi Hhi];
      [apply last_n_nonempty; [lia|exact Nc]|].
    destruct (min_nonempty (last_n 10 closes)) as [lo Hlo];
      [apply last_n_nonempty; [lia|exact Nc]|].
    rewrite Hhi. cbn [bind]. rewrite Hlo. cbn [bind].
    apply max_spec in Hhi. apply min_spec in Hlo.
    assert (Hgate : Qltb (hi - lo) 0.00005 = true).
    { apply Qltb_true.
      rewrite (Hflat hi (proj1 Hhi)), (Hflat lo (proj1 Hlo)). lra. }
    rewrite Hgate. left. reflexivity. }
  split; [exact Hrun|].
  destruct Hrun as [-> | ->]; reflexivity.
Qed.

Lemma flat_market_gives_no_signal_witness :
  caught (analyze_candles "EUR/USD (OTC)" Cases.flat) = None.
Proof.
  apply (flat_market_gives_no_signal "EUR/USD (OTC)" Cases.flat
           (repeat 1.2%Q 30) (repeat 1.2%Q 30) (repeat 1.2%Q 30) 1.2%Q).
  - reflexivity.
  - reflexivity.
  - reflexivity.
  - unfold Cases.flat. rewrite repeat_length. lia.
  - intros x Hx. vm_compute in Hx.
    repeat (destruct Hx as [Hx|Hx]; [now symmetry|]). destruct Hx.
Defined.

Lemma scoring_engine_zero_baseline (name : string) (s : Snapshot) :
  Qeq_bool (snap_ma20 s) 0 = true ->
  scoring_engine name s = Raise ZeroDivisionError.
Proof.
  intros Hz. unfold scoring_engine, score_of, distance_check, div, bind.
  destruct (running_score s) as [score lines]. now rewrite Hz.
Qed.

(** X11: When the analysis reaches the scoring code with a slow average equal
    to zero, line 129 divides by zero; the exception is caught on line 154,
    printed, and the pair yields no signal. *)
Theorem zero_baseline_is_swallowed (w : World) (code name : string)
    (st : State) (snap : Snapshot) :
  reaches_scoring w code st snap ->
  Qeq_bool (snap_ma20 snap) 0 = true ->
  analyze_pair w code name st =
    (Ok None,
     emit (EvPrint code ZeroDivisionError)
          (emit (EvGetCandles code 3600 60) st)).
Proof.
  intros (cl & fetched & candles & Hcl & Hfetch & Hprep & Hind) Hz.
  rewrite analyze_pair_run.
  unfold analyze_pair_body, client_attr, bindM, read_client, call, lift, ret.
  rewrite Hcl. cbv beta iota. rewrite Hfetch.
  unfold analyze_fetched. rewrite Hprep. cbn [bind].
  unfold analyze_candles. rewrite Hind. cbn [bind].
  now rewrite (scoring_engine_zero_baseline name snap Hz).
Qed.

Lemma zero_baseline_is_swallowed_witness :
  analyze_pair (Sample.world 92 Cases.alternating) "EURUSD_otc"
    "EUR/USD (OTC)" Sample.logged_in =
    (Ok None,
     {| bot_client := Some Sample.client;
        trace := [EvGetCandles "EURUSD_otc" 3600 60;
                  EvPrint "EURUSD_otc" ZeroDivisionError] |}).
Proof.
  destruct (indicators_of Cases.alternating) as [[snap|]|e] eqn:E;
    try (vm_compute in E; discriminate).
  apply (zero_baseline_is_swallowed (Sample.world 92 Cases.alternating)
           "EURUSD_otc" "EUR/USD (OTC)" Sample.logged_in snap).
  - exists Sample.client, (Some Cases.alternating), Cases.alternating.
    split; [reflexivity|]. split; [reflexivity|]. split; [reflexivity|].
    exact E.
  - vm_compute in E. injection E as <-. reflexivity.
Defined.

(** X12: A fetch that returns [None], an empty list or fewer than thirty
    candles ends the analysis at line 74: no signal, nothing printed, one
    fetch made, and [process_candles] is not consulted. *)
Theorem too_few_candles_give_no_signal (w1 w2 : World) (code name : string)
    (st : State) (cl : Client) (fetched : option (list Candle)) :
  bot_client st = Some cl ->
  get_candles w1 (trace st) cl code = Ok fetched ->
  get_candles w2 (trace st) cl code = Ok fetched ->
  (forall candles, fetched = Some candles -> (List.length candles < 30)%nat) ->
  analyze_pair w1 code name st =
    (Ok None, emit (EvGetCandles code 3600 60) st) /\
  analyze_pair w2 code name st = analyze_pair w1 code name st.
Proof.
  intros Hcl H1 H2 Hshort.
  assert (Hrun : forall w, get_candles w (trace st) cl code = Ok fetched ->
            analyze_pair w code name st =
              (Ok None, emit (EvGetCandles code 3600 60) st)).
  { intros w Hf. rewrite analyze_pair_run.
    unfold analyze_pair_body, client_attr, bindM, read_client, call, lift, ret.
    rewrite Hcl. cbv beta iota. rewrite Hf.
    unfold analyze_fetched, prepare_candles.
    destruct fetched as [candles|]; [|reflexivity].
    specialize (Hshort candles eq_refl).
    assert (Hlt : (Z.of_nat (List.length candles) <? 30) = true)
      by (apply Z.ltb_lt; lia).
    rewrite Hlt, orb_true_r. reflexivity. }
  split; [now apply Hrun|].
  rewrite (Hrun w1 H1), (Hrun w2 H2). reflexivity.
Qed.

Lemma too_few_candles_give_no_signal_witness :
  analyze_pair (Sample.world 92 Cases.too_few) "EURUSD_otc" "EUR/USD (OTC)"
    Sample.logged_in =
    (Ok None,
     {| bot_client := Some Sample.client;
        trace := [EvGetCandles "EURUSD_otc" 3600 60] |}).
Proof.
  apply (too_few_candles_give_no_signal
           (Sample.world 92 Cases.too_few) (Sample.world 95 Cases.too_few)
           "EURUSD_otc" "EUR/USD (OTC)" Sample.logged_in Sample.client
           (Some Cases.too_few)).
  - reflexivity.
  - reflexivity.
  - reflexivity.
  - intros candles H. injection H as <-.
    unfold Cases.too_few. rewrite repeat_length. lia.
Defined.

(** ** What a run of the loop does to the outside *)

Lemma fetched_codes_app (a b : list Event) :
  fetched_codes (a ++ b) = (fetched_codes a ++ fetched_codes b)%list.
Proof.
  induction a as [|ev a IH]; [reflexivity|].
  destruct ev; cbn [app fetched_codes]; rewrite IH; reflexivity.
Qed.

Lemma analyze_pair_effects (w : World) (code name : string) (st : State)
    (cl : Client) :
  bot_client st = Some cl ->
  exists r st',
    analyze_pair w code name st = (Ok r, st') /\
    bot_client st' = Some cl /\
    fetched_codes (trace st') = (fetched_codes (trace st) ++ [code])%list.
Proof.
  intros Hcl. rewrite analyze_pair_run.
  unfold analyze_pair_body, client_attr, bindM, read_client, call, lift, ret.
  rewrite Hcl. cbv beta iota.
  destruct (get_candles w (trace st) cl code) as [fetched|e].
  - destruct (analyze_fetched w name fetched) as [r|e].
    + eexists. eexists. split; [reflexivity|].
      unfold emit. cbn [bot_client trace]. split; [exact Hcl|].
      rewrite fetched_codes_app. reflexivity.
    + eexists. eexists. split; [reflexivity|].
      unfold emit. cbn [bot_client trace]. split; [exact Hcl|].
      rewrite !fetched_codes_app. cbn [fetched_codes].
      now rewrite app_nil_r.
  - eexists. eexists. split; [reflexivity|].
    unfold emit. cbn [bot_client trace]. split; [exact Hcl|].
    rewrite !fetched_codes_app. cbn [fetched_codes].
    now rewrite app_nil_r.
Qed.

Lemma loop_body_effects (w : World) (p : Pair) (best : option Signal)
    (hi : Z) (st : State) (cl : Client) :
  bot_client st = Some cl ->
  exists ctl st',
    loop_body w p best hi st = (Ok ctl, st') /\
    bot_client st' = Some cl /\
    fetched_codes (trace st') =
      (fetched_codes (trace st) ++ [asset_code p])%list.
Proof.
  intros Hcl.
  destruct (analyze_pair_effects w (asset_code p) (display_name p) st cl Hcl)
    as ([sig|] & st1 & Han & Hcl1 & Hf1).
  - destruct (analyze_pair_some _ _ _ _ _ _ Han) as (_ & c & _ & Hc).
    rewrite (loop_body_signal w p best hi c st st1 sig Han Hc).
    destruct ((if c >? hi then c else hi) >=? 90).
    + eexists. eexists. split; [reflexivity|]. auto.
    + eexists. eexists. split; [reflexivity|].
      unfold emit. cbn [bot_client trace]. split; [exact Hcl1|].
      rewrite fetched_codes_app, Hf1. cbn [fetched_codes].
      now rewrite app_nil_r.
  - rewrite (loop_body_no_signal w p best hi st st1 Han).
    eexists. eexists. split; [reflexivity|].
    unfold emit. cbn [bot_client trace]. split; [exact Hcl1|].
    rewrite fetched_codes_app, Hf1. cbn [fetched_codes].
    now rewrite app_nil_r.
Qed.

Lemma select_loop_effects (w : World) (pairs : list Pair) (cl : Client) :
  forall best hi st,
    bot_client st = Some cl ->
    exists r st' k,
      select_loop w pairs best hi st = (Ok r, st') /\
      (k <= List.length pairs)%nat /\
      bot_client st' = Some cl /\
      fetched_codes (trace st') =
        (fetched_codes (trace st) ++ map asset_code (firstn k pairs))%list.
Proof.
  induction pairs as [|p rest IH]; intros best hi st Hcl.
  - exists best, st, 0%nat. cbn [select_loop]. unfold ret.
    split; [reflexivity|]. split; [simpl; lia|]. split; [exact Hcl|].
    cbn [firstn map]. now rewrite app_nil_r.
  - destruct (loop_body_effects w p best hi st cl Hcl)
      as (ctl & st1 & Hbody & Hcl1 & Hf1).
    destruct ctl as [b|b h].
    + exists b, st1, 1%nat. cbn [select_loop]. unfold bindM, ret.
      rewrite Hbody. split; [reflexivity|]. split; [simpl; lia|].
      split; [exact Hcl1|]. cbn [firstn map]. exact Hf1.
    + destruct (IH b h st1 Hcl1) as (r & st' & k & Hrun & Hk & Hcl' & Hf').
      exists r, st', (S k).
      rewrite (select_loop_step w p rest best b hi h st st1 Hbody).
      split; [exact Hrun|]. split; [simpl; lia|]. split; [exact Hcl'|].
      rewrite Hf', Hf1. cbn [firstn map]. now rewrite <- app_assoc.
Qed.

Lemma get_high_payout_pairs_effects (w : World) (st : State) :
  bot_client (snd (get_high_payout_pairs w st)) = bot_client st /\
  fetched_codes (trace (snd (get_high_payout_pairs w st))) =
    fetched_codes (trace st).
Proof.
  unfold get_high_payout_pairs, bindM, read_client, call, ret.
  destruct (bot_client st) as [cl|] eqn:Hcl; cbv beta iota.
  - destruct (get_payment w (trace st) cl) as [pd|e].
    + destruct (get_all_assets w (trace (emit EvGetPayment st)) cl) as [aa|e].
      * destruct (is_empty_dict pd || is_empty_dict aa);
          unfold emit; cbn [snd bot_client trace];
          rewrite !fetched_codes_app; cbn [fetched_codes];
          rewrite !app_nil_r; auto.
      * unfold emit; cbn [snd bot_client trace].
        rewrite !fetched_codes_app; cbn [fetched_codes].
        rewrite !app_nil_r; auto.
    + unfold emit; cbn [snd bot_client trace].
      rewrite !fetched_codes_app; cbn [fetched_codes].
      rewrite !app_nil_r; auto.
  - cbn [snd]. auto.
Qed.

(** X13: Whatever the connector answers, one call of [get_signal] fetches
    candles for the first few of the ranked pairs only, one fetch each, in
    rank order, and never more than ten times. *)
Theorem get_signal_fetch_budget (w : World) (st : State) :
  exists k,
    (k <= 10)%nat /\
    fetched_codes (trace (snd (get_signal w st))) =
      (fetched_codes (trace st)
       ++ map asset_code (firstn k (ranked w st)))%list.
Proof.
  unfold get_signal, ranked, bindM, read_client.
  destruct (bot_client st) as [cl|] eqn:Hcl; cbv beta iota.
  - destruct (get_high_payout_pairs_effects w st) as [Hcl1 Hf1].
    destruct (get_high_payout_pairs w st) as [[pairs|e] st1] eqn:Hrun;
      cbn [fst snd] in Hcl1, Hf1 |- *.
    + assert (Hlen : (List.length pairs <= 10)%nat).
      { destruct (get_high_payout_pairs_cases _ _ _ _ Hrun)
          as [Hc|(c & pd & aa & _ & _ & _ & Hc)]; rewrite Hc;
          [simpl; lia|]. unfold first_n. apply firstn_le_length. }
      destruct (is_nil pairs).
      * exists 0%nat. split; [lia|]. unfold ret. cbn [snd firstn map].
        now rewrite app_nil_r.
      * rewrite Hcl in Hcl1.
        destruct (select_loop_effects w pairs cl None 0 st1 Hcl1)
          as (r & st' & k & Hloop & Hk & _ & Hf').
        exists k. split; [lia|]. rewrite Hloop.
        destruct r; unfold ret; cbn [snd]; now rewrite Hf', Hf1.
    + exists 0%nat. split; [lia|]. cbn [snd firstn map].
      now rewrite app_nil_r.
  - exists 0%nat. split; [lia|]. unfold raise. cbn [snd firstn map].
    now rewrite app_nil_r.
Qed.

(** ** Which signal the loop returns *)

Lemma loop_body_consistent (w : World) (p : Pair) (best : option Signal)
    (hi : Z) (st st' : State) (ctl : LoopCtl) :
  consistent best hi ->
  loop_body w p best hi st = (Ok ctl, st') ->
  match ctl with
  | Break b => exists s c, b = Some s /\ conf_int_of s = Ok c /\ hi <= c
  | Continue b h => consistent b h /\ hi <= h /\ (b = None -> best = None)
  end.
Proof.
  intros Hinv Hbody.
  assert (Hhi : 0 <= hi).
  { destruct best as [b|]; simpl in Hinv; [destruct Hinv|]; lia. }
  destruct (analyze_pair_total w (asset_code p) (display_name p) st)
    as ([sig|] & st1 & Han).
  - destruct (analyze_pair_some _ _ _ _ _ _ Han) as (_ & c & Hin & Hc).
    assert (Hpos : 60 <= c) by (simpl in Hin; lia).
    rewrite (loop_body_signal w p best hi c st st1 sig Han Hc) in Hbody.
    destruct (c >? hi) eqn:Hgt.
    + apply Z.gtb_lt in Hgt.
      destruct (c >=? 90); injection Hbody as <- _.
      * exists sig, c. repeat split; auto; lia.
      * split; [simpl; split; [exact Hc|lia]|]. split; [lia|discriminate].
    + rewrite Z.gtb_ltb in Hgt. apply Z.ltb_ge in Hgt.
      destruct best as [b|]; [|simpl in Hinv; lia].
      destruct Hinv as [Hb Hb0].
      destruct (hi >=? 90); injection Hbody as <- _.
      * exists b, hi. repeat split; auto; lia.
      * split; [split; assumption|]. split; [lia|discriminate].
  - rewrite (loop_body_no_signal w p best hi st st1 Han) in Hbody.
    injection Hbody as <- _. split; [exact Hinv|]. split; [lia|auto].
Qed.

Lemma select_loop_monotone (w : World) (pairs : list Pair) :
  forall best hi st r st',
    consistent best hi ->
    select_loop w pairs best hi st = (Ok r, st') ->
    match r with
    | None => best = None
    | Some s => exists c, conf_int_of s = Ok c /\ hi <= c
    end.
Proof.
  induction pairs as [|p rest IH]; intros best hi st r st' Hinv Hrun.
  - cbn [select_loop] in Hrun. unfold ret in Hrun. injection Hrun as <- _.
    destruct best as [b|]; [|reflexivity].
    destruct Hinv as [Hb _]. exists hi. split; [exact Hb|lia].
  - destruct (loop_body_total w p best hi st) as (ctl & st1 & Hbody).
    pose proof (loop_body_consistent w p best hi st st1 ctl Hinv Hbody) as Hc.
    destruct ctl as [b|b h].
    + cbn [select_loop] in Hrun. unfold bindM, ret in Hrun.
      rewrite Hbody in Hrun. injection Hrun as <- _.
      destruct Hc as (s & c & -> & Hs & Hle). eauto.
    + rewrite (select_loop_step w p rest best b hi h st st1 Hbody) in Hrun.
      destruct Hc as (Hinv' & Hle & Hnone).
      pose proof (IH b h st1 r st' Hinv' Hrun) as Hr.
      destruct r as [s|].
      * destruct Hr as (c & Hs & Hc). exists c. split; [exact Hs|lia].
      * auto.
Qed.

Lemma at_iteration_consistent (w : World) (pairs rest : list Pair)
    (best best' : option Signal) (hi hi' : Z) (st st' : State) :
  at_iteration w pairs best hi st rest best' hi' st' ->
  consistent best hi -> consistent best' hi'.
Proof.
  induction 1 as [|p rest best1 hi1 st1 best2 hi2 st2 _ IH Hbody]; intros Hinv.
  - exact Hinv.
  - apply (loop_body_consistent w p best1 hi1 st1 st2 _ (IH Hinv) Hbody).
Qed.

(** X14: The loop returns a signal at least as confident as any signal a
    candidate produced during the run; in particular it answers "waiting"
    only when no candidate it analysed produced a signal. *)
Theorem best_signal_wins
    (w : World) (pairs rest : list Pair) (p : Pair)
    (best : option Signal) (hi c1 : Z) (st st1 st2 : State) (s1 : Signal) :
  at_iteration w pairs None 0 st (p :: rest) best hi st1 ->
  analyze_pair w (asset_code p) (display_name p) st1 = (Ok (Some s1), st2) ->
  conf_int_of s1 = Ok c1 ->
  exists s c st',
    select_loop w pairs None 0 st = (Ok (Some s), st') /\
    conf_int_of s = Ok c /\
    c1 <= c.
Proof.
  intros Hiter Han Hc1.
  assert (Hinv : consistent best hi).
  { apply (at_iteration_consistent _ _ _ _ _ _ _ _ _ Hiter). reflexivity. }
  rewrite (at_iteration_select_loop _ _ _ _ _ _ _ _ _ Hiter).
  destruct (loop_body_total w p best hi st1) as (ctl & st3 & Hbody).
  pose proof (loop_body_consistent w p best hi st1 st3 ctl Hinv Hbody) as Hc.
  assert (Hctl : match ctl with
                 | Break b => exists s c, b = Some s /\ conf_int_of s = Ok c
                                          /\ c1 <= c
                 | Continue b h => b <> None /\ c1 <= h
                 end).
  { rewrite (loop_body_signal w p best hi c1 st1 st2 s1 Han Hc1) in Hbody.
    destruct (analyze_pair_some _ _ _ _ _ _ Han) as (_ & c & Hin & Hc').
    rewrite Hc1 in Hc'. injection Hc' as <-.
    assert (Hpos : 60 <= c1) by (simpl in Hin; lia).
    destruct (c1 >? hi) eqn:Hgt.
    - destruct (c1 >=? 90); injection Hbody as <- _.
      + exists s1, c1. repeat split; auto; lia.
      + split; [discriminate|lia].
    - rewrite Z.gtb_ltb in Hgt. apply Z.ltb_ge in Hgt.
      destruct best as [b|]; [|simpl in Hinv; lia].
      destruct Hinv as [Hb _].
      destruct (hi >=? 90); injection Hbody as <- _.
      + exists b, hi. repeat split; auto.
      + split; [discriminate|exact Hgt]. }
  destruct ctl as [b|b h].
  - destruct Hctl as (s & c & -> & Hs & Hle).
    exists s, c, st3. cbn [select_loop]. unfold bindM, ret. rewrite Hbody.
    auto.
  - destruct Hctl as [Hb Hle]. destruct Hc as (Hinv' & _ & _).
    rewrite (select_loop_step w p rest best b hi h st1 st3 Hbody).
    destruct (select_loop_total w rest b h st3) as (r & st' & Hrun).
    pose proof (select_loop_monotone w rest b h st3 r st' Hinv' Hrun) as Hr.
    destruct r as [s|]; [|contradiction].
    destruct Hr as (c & Hs & Hc). exists s, c, st'.
    split; [exact Hrun|]. split; [exact Hs|lia].
Qed.

Lemma best_signal_wins_witness :
  exists s c st',
    select_loop Sample.world_two [Sample.eurusd_95; Sample.gbpusd_92] None 0
      Sample.after_resolver = (Ok (Some s), st') /\
    conf_int_of s = Ok c /\
    98 <= c.
Proof.
  destruct (analyze_pair Sample.world_two "EURUSD_otc" "EUR/USD (OTC)"
              Sample.after_resolver)
    as [[[sig|]|e] st2] eqn:E; try (vm_compute in E; discriminate).
  apply (best_signal_wins Sample.world_two
           [Sample.eurusd_95; Sample.gbpusd_92] [Sample.gbpusd_92]
           Sample.eurusd_95 None 0 98 Sample.after_resolver
           Sample.after_resolver st2 sig).
  - apply at_start.
  - exact E.
  - vm_compute in E. injection E as <- _. reflexivity.
Defined.

Lemma analyze_pair_names_pair (w : World) (code name : string)
    (st st' : State) (sig : Signal) :
  analyze_pair w code name st = (Ok (Some sig), st') -> pair sig = name.
Proof.
  rewrite analyze_pair_run.
  destruct (analyze_pair_body w code name st) as [[r|e] st1] eqn:E;
    [|discriminate].
  intros H. injection H as -> _.
  apply analyze_pair_body_some in E. destruct E as (_ & snap & Hsnap).
  apply scoring_engine_some in Hsnap.
  destruct Hsnap as (score & lines & _ & Hc).
  apply compile_signal_some in Hc. tauto.
Qed.

Lemma select_loop_provenance (w : World) (pairs : list Pair) :
  forall best hi st s st',
    select_loop w pairs best hi st = (Ok (Some s), st') ->
    best = Some s \/ exists p, In p pairs /\ pair s = display_name p.
Proof.
  induction pairs as [|p rest IH]; intros best hi st s st' Hrun.
  - cbn [select_loop] in Hrun. unfold ret in Hrun. injection Hrun as -> _.
    now left.
  - destruct (loop_body_total w p best hi st) as (ctl & st1 & Hbody).
    assert (Hctl : match ctl with
                   | Break b | Continue b _ =>
                       b = best \/ exists sig, b = Some sig /\
                                               pair sig = display_name p
                   end).
    { destruct (analyze_pair_total w (asset_code p) (display_name p) st)
        as ([sig|] & st2 & Han).
      - destruct (analyze_pair_some _ _ _ _ _ _ Han) as (_ & c & _ & Hc).
        pose proof (analyze_pair_names_pair _ _ _ _ _ _ Han) as Hname.
        rewrite (loop_body_signal w p best hi c st st2 sig Han Hc) in Hbody.
        destruct ((if c >? hi then c else hi) >=? 90);
          injection Hbody as <- _; destruct (c >? hi); eauto.
      - rewrite (loop_body_no_signal w p best hi st st2 Han) in Hbody.
        injection Hbody as <- _. now left. }
    destruct ctl as [b|b h].
    + cbn [select_loop] in Hrun. unfold bindM, ret in Hrun.
      rewrite Hbody in Hrun. injection Hrun as -> _.
      destruct Hctl as [<-|(sig & Hsig & Hname)]; [now left|].
      right. exists p. injection Hsig as ->. split; [now left|exact Hname].
    + rewrite (select_loop_step w p rest best b hi h st st1 Hbody) in Hrun.
      destruct (IH b h st1 s st' Hrun) as [Hb|(q & Hq & Hname)].
      * destruct Hctl as [<-|(sig & Hsig & Hname)]; [now left|].
        right. exists p. rewrite Hb in Hsig. injection Hsig as ->.
        split; [now left|exact Hname].
      * right. exists q. split; [now right|exact Hname].
Qed.

Lemma get_high_payout_pairs_raises (w : World) (st st' : State) (e : Exn) :
  get_high_payout_pairs w st = (Raise e, st') ->
  exists cl,
    bot_client st = Some cl /\
    (get_payment w (trace st) cl = Raise e \/
     get_all_assets w (trace st ++ [EvGetPayment]) cl = Raise e).
Proof.
  unfold get_high_payout_pairs, bindM, read_client, call, ret.
  destruct (bot_client st) as [cl|]; cbv beta iota; [|discriminate].
  destruct (get_payment w (trace st) cl) as [pd|e1] eqn:Hpay.
  - cbn [emit trace bot_client].
    destruct (get_all_assets w (trace st ++ [EvGetPayment]) cl) as [aa|e2]
      eqn:Has.
    + destruct (is_empty_dict pd || is_empty_dict aa); discriminate.
    + intros H. injection H as <- _. exists cl. auto.
  - intros H. injection H as <- _. exists cl. auto.
Qed.

(** ** The outcomes of [get_signal] *)

(** X15: Every way [get_signal] can end.  It raises only the 401 of line 182,
    when no session is set, or what the payout or catalog call raised;
    nothing a candidate does makes it raise.  Otherwise it answers "error"
    when the resolver found no pair, "waiting" when it found some, and
    "success" with a signal that bears the display name of one of the
    ranked pairs. *)
Theorem get_signal_outcomes (w : World) (st : State) :
  match get_signal w st with
  | (Ok (Message status _), _) =>
      bot_client st <> None /\
      ((status = "error" /\ ranked w st = []) \/
       (status = "waiting" /\ ranked w st <> []))
  | (Ok (Data status s), _) =>
      bot_client st <> None /\
      status = "success" /\
      exists p, In p (ranked w st) /\ pair s = display_name p
  | (Raise e, st') =>
      (bot_client st = None /\ st' = st /\
       e = HTTPException 401 "Bot is not logged in. Call /login first.") \/
      (exists cl, bot_client st = Some cl /\
         (get_payment w (trace st) cl = Raise e \/
          get_all_assets w (trace st ++ [EvGetPayment]) cl = Raise e))
  end.
Proof.
  unfold get_signal, ranked, bindM, read_client.
  destruct (bot_client st) as [cl|] eqn:Hcl; cbv beta iota.
  - destruct (get_high_payout_pairs w st) as [[pairs|e] st1] eqn:Hrun;
      cbn [fst].
    + destruct pairs as [|p rest].
      * cbn [is_nil]. unfold ret.
        split; [discriminate|]. left. auto.
      * cbn [is_nil]. cbv beta iota.
        destruct (select_loop_total w (p :: rest) None 0 st1)
          as (r & st' & Hloop).
        rewrite Hloop. destruct r as [s|]; unfold ret.
        -- split; [discriminate|]. split; [reflexivity|].
           destruct (select_loop_provenance w (p :: rest) None 0 st1 s st'
                       Hloop) as [H|H]; [discriminate|exact H].
        -- split; [discriminate|]. right. split; [reflexivity|discriminate].
    + right. apply get_high_payout_pairs_raises in Hrun.
      destruct Hrun as (cl' & Hcl' & Hr). rewrite Hcl in Hcl'.
      injection Hcl' as <-. eauto.
  - unfold raise. left. auto.
Qed.

(** ** The outcomes of [login] *)

(** X16: [login] either succeeds, leaving in [bot_client] the new client in
    PRACTICE mode, or raises an HTTP error whose status is 500: the 401
    raised on line 174 for rejected credentials is caught by the handler
    of line 175 and never reaches the caller. *)
Theorem login_failures_are_500 (w : World) (req : LoginRequest) (st : State) :
  match login w req st with
  | (Ok r, st') =>
      r = Message "success" "Successfully connected to Quotex websocket." /\
      bot_client st' =
        Some (set_account_mode "PRACTICE"
                (Quotex (req_email req) (req_password req) "en"))
  | (Raise e, _) => exists detail, e = HTTPException 500 detail
  end.
Proof.
  unfold login, try_except, bindM, read_client, write_client, call, ret, raise.
  destruct (bot_client st) as [old|]; cbv beta iota.
  - destruct (close w (trace st) old) as [[]|e]; [|eauto].
    cbn [emit trace bot_client].
    destruct (connect w _ _) as [[check reason]|e]; [|eauto].
    cbn [fst snd]. destruct check; cbn [bot_client]; eauto.
  - cbn [trace bot_client].
    destruct (connect w _ _) as [[check reason]|e]; [|eauto].
    cbn [fst snd]. destruct check; cbn [bot_client]; eauto.
Qed.

(** X17: Once the old session, if any, has been closed, [connect] is called on
    the new client; when it answers, a true check installs the client in
    PRACTICE mode and a false one clears [bot_client] and reports the
    connector's reason inside the 500 error.  The old client is closed
    before the new one connects. *)
Theorem login_after_connect (w : World) (req : LoginRequest) (st : State)
    (tr : list Event) (check : bool) (reason : string) :
  (bot_client st = None /\ tr = trace st) \/
  (exists old, bot_client st = Some old /\
               close w (trace st) old = Ok tt /\
               tr = (trace st ++ [EvClose old])%list) ->
  connect w tr (Quotex (req_email req) (req_password req) "en") =
    Ok (check, reason) ->
  login w req st =
    if check then
      (Ok (Message "success" "Successfully connected to Quotex websocket."),
       {| bot_client :=
            Some (set_account_mode "PRACTICE"
                    (Quotex (req_email req) (req_password req) "en"));
          trace := (tr ++ [EvConnect
                     (Quotex (req_email req) (req_password req) "en")])%list |})
    else
      (Raise (HTTPException 500
                (exn_str w (HTTPException 401 ("Login failed: " ++ reason)))),
       {| bot_client := None;
          trace := (tr ++ [EvConnect
                     (Quotex (req_email req) (req_password req) "en")])%list |}).
Proof.
  intros Hstart Hconn.
  unfold login, try_except, bindM, read_client, write_client, call, ret, raise.
  destruct Hstart as [[Hcl ->]|(old & Hcl & Hclose & ->)]; rewrite Hcl;
    cbv beta iota.
  - cbn [trace bot_client]. rewrite Hconn. cbn [fst snd].
    destruct check; reflexivity.
  - rewrite Hclose. cbn [emit trace bot_client]. rewrite Hconn. cbn [fst snd].
    destruct check; reflexivity.
Qed.

Lemma login_after_connect_witness :
  login (Sample.world 92 Sample.falling_onto_baseline) Sample.request
    Sample.logged_in =
    (Ok (Message "success" "Successfully connected to Quotex websocket."),
     {| bot_client := Some (set_account_mode "PRACTICE" Sample.client);
        trace := [EvClose Sample.client; EvConnect Sample.client] |}).
Proof.
  apply (login_after_connect (Sample.world 92 Sample.falling_onto_baseline)
           Sample.request Sample.logged_in [EvClose Sample.client] true "ok").
  - right. exists Sample.client.
    split; [reflexivity|]. split; reflexivity.
  - reflexivity.
Defined.

(** X18: When closing the old session raises, [login] fails with that
    exception's text in a 500 error, [connect] is never called, and the
    old client stays in [bot_client]. *)
Theorem login_close_raises (w : World) (req : LoginRequest) (st : State)
    (old : Client) (e : Exn) :
  bot_client st = Some old ->
  close w (trace st) old = Raise e ->
  login w req st =
    (Raise (HTTPException 500 (exn_str w e)),
     {| bot_client := Some old;
        trace := (trace st ++ [EvClose old])%list |}).
Proof.
  intros Hcl Hclose.
  unfold login, try_except, bindM, read_client, write_client, call, ret, raise.
  rewrite Hcl. cbv beta iota. rewrite Hclose.
  unfold emit. now rewrite Hcl.
Qed.

Lemma login_close_raises_witness :
  login Cases.world_close_raises Sample.request Sample.logged_in =
    (Raise (HTTPException 500 "socket already closed"),
     {| bot_client := Some Sample.client;
        trace := [EvClose Sample.client] |}).
Proof.
  apply (login_close_raises Cases.world_close_raises Sample.request
           Sample.logged_in Sample.client
           (ConnectorError "socket already closed")).
  - reflexivity.
  - reflexivity.
Defined.

(** ** Normal forms of names and codes *)

Lemma prefix_char (c a : ascii) (rest : string) :
  String.prefix (String c EmptyString) (String a rest) = Ascii.eqb a c.
Proof.
  cbn [String.prefix]. destruct (ascii_dec c a) as [->|Hne].
  - rewrite Ascii.eqb_refl. destruct rest; reflexivity.
  - symmetry. apply Ascii.eqb_neq. congruence.
Qed.

Lemma replace_char (ok : ascii -> bool) (c : ascii) (s : string) :
  (forall a, Ascii.eqb a c = false -> ok a = true) ->
  all_chars ok (replace (String c EmptyString) EmptyString s) = true.
Proof.
  intros Hok. cbn [replace]. induction s as [|a rest IH]; [reflexivity|].
  cbn [replace_from]. rewrite prefix_char.
  destruct (Ascii.eqb a c) eqn:E.
  - cbn [String.length Nat.sub append]. exact IH.
  - cbn [all_chars]. now rewrite (Hok a E), IH.
Qed.

Lemma replace_char_keeps (ok : ascii -> bool) (c : ascii) (s : string) :
  all_chars ok s = true ->
  all_chars ok (replace (String c EmptyString) EmptyString s) = true.
Proof.
  cbn [replace]. induction s as [|a rest IH]; [reflexivity|].
  cbn [all_chars replace_from]. rewrite prefix_char.
  intros H. apply andb_true_iff in H. destruct H as [Ha Hrest].
  destruct (Ascii.eqb a c).
  - cbn [String.length Nat.sub append]. now apply IH.
  - cbn [all_chars]. now rewrite Ha, IH.
Qed.

Lemma upper_char_plain (a : ascii) :
  is_lower (upper_char a) = false /\
  Ascii.eqb (upper_char a) "/" = Ascii.eqb a "/" /\
  Ascii.eqb (upper_char a) " " = Ascii.eqb a " ".
Proof.
  destruct a as [[] [] [] [] [] [] [] []]; vm_compute; auto.
Qed.

Lemma upper_plain (s : string) :
  all_chars (fun a => negb (Ascii.eqb a "/") && negb (Ascii.eqb a " ")) s
    = true ->
  all_chars plain (upper s) = true.
Proof.
  induction s as [|a rest IH]; [reflexivity|].
  cbn [all_chars upper]. intros H.
  apply andb_true_iff in H. destruct H as [Ha Hrest].
  destruct (upper_char_plain a) as (Hl & Hs & Hp).
  unfold plain at 1. rewrite Hl, Hs, Hp, Ha. cbn [negb andb].
  now apply IH.
Qed.

Lemma upper_no_lower (s : string) :
  all_chars (fun a => negb (is_lower a)) (upper s) = true.
Proof.
  induction s as [|a rest IH]; [reflexivity|].
  cbn [all_chars upper]. destruct (upper_char_plain a) as (Hl & _).
  now rewrite Hl, IH.
Qed.

(** X19: The normal form of a display name holds no slash, no space and no
    lower-case letter, and the normal form of a catalog code holds no
    lower-case letter: the comparison of line 56 is blind to letter case
    and to the separators of display names. *)
Theorem normal_forms_are_plain (name code : string) :
  all_chars plain (display_clean name) = true /\
  all_chars (fun a => negb (is_lower a)) (asset_code_clean code) = true.
Proof.
  split.
  - unfold display_clean. apply upper_plain.
    set (t := strip (replace "(otc)" EmptyString
                       (replace "(OTC)" EmptyString name))).
    assert (Hslash : all_chars (fun a => negb (Ascii.eqb a "/"))
                       (replace "/" EmptyString t) = true).
    { apply replace_char. intros a E. now rewrite E. }
    assert (H1 : all_chars (fun a => negb (Ascii.eqb a "/"))
                   (replace " " EmptyString (replace "/" EmptyString t))
                 = true)
      by (now apply replace_char_keeps).
    assert (H2 : all_chars (fun a => negb (Ascii.eqb a " "))
                   (replace " " EmptyString (replace "/" EmptyString t))
                 = true).
    { apply replace_char. intros a E. now rewrite E. }
    clear Hslash. revert H1 H2.
    generalize (replace " " EmptyString (replace "/" EmptyString t)).
    induction s as [|a rest IH]; [reflexivity|].
    cbn [all_chars]. intros H1 H2.
    apply andb_true_iff in H1. apply andb_true_iff in H2.
    destruct H1 as [A1 R1], H2 as [A2 R2].
    now rewrite A1, A2, IH.
  - unfold asset_code_clean. apply upper_no_lower.
Qed.

(** ** The RSI of a window without movement *)




